(** * mgscraper: the scrape-events route

    A shallow embedding of [src/app/api/scrape-events/route.ts]: the five-step
    scraping pipeline that streams progress records and one final record, the
    per-fragment normalisation of step 4 and the sorting of step 5.

    The host (Node.js/V8 and Puppeteer) is not part of the repository.  What
    the route asks of it is modelled in the modules [JSString], [JSDate],
    [JSArray] and [JSObject] below, and what it answers during one run
    (import, launch, page operations, clock readings, [close]) is collected
    in the record [Env].  The function the route hands to [page.evaluate]
    runs inside the page, on its DOM; the fragments it returns are part of
    [Env] as well.  That function is embedded in [Extractor], over the
    document model [DOM], and the page that reads the stream,
    [scrapeEvents] of the client component, in [Client]. *)

From Stdlib Require Import ZArith Ascii String Lia Bool DecimalString.
From stdpp Require Import base numbers option list strings sorting.

(** ** JavaScript strings

    A string is read as its sequence of code units; [ascii] covers the
    code units below 256, which is all the route's patterns and keywords
    use. *)
Module JSString.

Definition code (c : ascii) : nat := nat_of_ascii c.

(** [\d] *)
Definition is_digit (c : ascii) : bool :=
  (48 <=? code c)%nat && (code c <=? 57)%nat.

(** Line terminators: what [.] refuses. *)
Definition is_line_terminator (c : ascii) : bool :=
  (code c =? 10)%nat || (code c =? 13)%nat.

(** [\s], and what [trim] strips: TAB, LF, VT, FF, CR, SP, NBSP. *)
Definition is_space (c : ascii) : bool :=
  ((9 <=? code c)%nat && (code c <=? 13)%nat)
  || (code c =? 32)%nat || (code c =? 160)%nat.

(** [String.prototype.startsWith] *)
Fixpoint startsWith (s pat : string) : bool :=
  match pat, s with
  | EmptyString, _ => true
  | String p pat', String c s' => Ascii.eqb c p && startsWith s' pat'
  | String _ _, EmptyString => false
  end.

(** [String.prototype.includes] *)
Fixpoint includes (s pat : string) : bool :=
  startsWith s pat
  || match s with
     | EmptyString => false
     | String _ s' => includes s' pat
     end.

Definition lower (c : ascii) : ascii :=
  let n := code c in
  if ((65 <=? n)%nat && (n <=? 90)%nat)
     || ((192 <=? n)%nat && (n <=? 222)%nat && negb (n =? 215)%nat)
  then ascii_of_nat (n + 32) else c.

(** [String.prototype.toLowerCase] *)
Fixpoint toLowerCase (s : string) : string :=
  match s with
  | EmptyString => EmptyString
  | String c s' => String (lower c) (toLowerCase s')
  end.

Fixpoint trimStart (s : string) : string :=
  match s with
  | String c s' => if is_space c then trimStart s' else s
  | EmptyString => EmptyString
  end.

Fixpoint trimEnd (s : string) : string :=
  match s with
  | EmptyString => EmptyString
  | String c s' =>
      match trimEnd s' with
      | EmptyString => if is_space c then EmptyString else String c EmptyString
      | t => String c t
      end
  end.

(** [String.prototype.trim] *)
Definition trim (s : string) : string := trimEnd (trimStart s).

(** [s.replace(/c/g, r)] for a one-character pattern. *)
Fixpoint replaceAll (c r : ascii) (s : string) : string :=
  match s with
  | EmptyString => EmptyString
  | String x s' => String (if Ascii.eqb x c then r else x) (replaceAll c r s')
  end.

(** [s.replace("c", r)]: a string pattern replaces its first occurrence
    only. *)
Fixpoint replaceFirst (c r : ascii) (s : string) : string :=
  match s with
  | EmptyString => EmptyString
  | String x s' =>
      if Ascii.eqb x c then String r s' else String x (replaceFirst c r s')
  end.

(** [s.split("c")[0]]: the text before the first [c], all of [s] when
    there is none. *)
Fixpoint splitHead (c : ascii) (s : string) : string :=
  match s with
  | EmptyString => EmptyString
  | String x s' =>
      if Ascii.eqb x c then EmptyString else String x (splitHead c s')
  end.

(** *** Fixed-width patterns

    The time-range pattern of the route is a sequence of [\d] and literal
    characters, so a match at a position is a match of the next
    characters one by one. *)
Inductive Tok := D | L (c : ascii).

Definition tok_ok (t : Tok) (c : ascii) : bool :=
  match t with
  | D => is_digit c
  | L l => Ascii.eqb c l
  end.

(** Match [p] at the start of [s]: the matched text and the rest. *)
Fixpoint match_here (p : list Tok) (s : string) : option (string * string) :=
  match p with
  | [] => Some (EmptyString, s)
  | t :: p' =>
      match s with
      | EmptyString => None
      | String c s' =>
          if tok_ok t c then
            match match_here p' s' with
            | Some (m, rest) => Some (String c m, rest)
            | None => None
            end
          else None
      end
  end.

(** [\d{4}\/\d{2}\/\d{2} \d{2}:\d{2}:\d{2}] *)
Definition stamp : list Tok :=
  [D; D; D; D; L "/"; D; D; L "/"; D; D; L " "; D; D; L ":"; D; D; L ":"; D; D].

Definition dash : list Tok := [L " "; L "-"; L " "].

(** [/(stamp) - (stamp)/] tried at the start of [s]: the two groups. *)
Definition range_here (s : string) : option (string * string) :=
  match match_here stamp s with
  | Some (g1, r1) =>
      match match_here dash r1 with
      | Some (_, r2) =>
          match match_here stamp r2 with
          | Some (g2, _) => Some (g1, g2)
          | None => None
          end
      | None => None
      end
  | None => None
  end.

(** [s.match(/(stamp) - (stamp)/)]: the leftmost match, its groups 1
    and 2. *)
Fixpoint match_range (s : string) : option (string * string) :=
  match range_here s with
  | Some g => Some g
  | None =>
      match s with
      | EmptyString => None
      | String _ s' => match_range s'
      end
  end.

Fixpoint dropSpaces (s : string) : string :=
  match s with
  | String c s' => if is_space c then dropSpaces s' else s
  | EmptyString => EmptyString
  end.

Fixpoint takeLine (s : string) : string :=
  match s with
  | String c s' =>
      if is_line_terminator c then EmptyString else String c (takeLine s')
  | EmptyString => EmptyString
  end.

(** The last character of [s] that [.] accepts. *)
Fixpoint last_dot (s : string) : option ascii :=
  match s with
  | String c s' =>
      match last_dot s' with
      | Some d => Some d
      | None => if is_line_terminator c then None else Some c
      end
  | EmptyString => None
  end.

(** [/Duration:\s*(.+)/] with the text after the label in hand: group 1.
    The greedy [\s*] takes the whole run of white space; when text
    follows, the group is that text up to the end of its line.  When the
    run ends the string, [\s*] gives characters back until [.+] finds one
    it accepts: the last character of the run that is no line
    terminator. *)
Definition duration_group (rest : string) : option string :=
  match dropSpaces rest with
  | EmptyString =>
      match last_dot rest with
      | Some c => Some (String c EmptyString)
      | None => None
      end
  | String c t => Some (takeLine (String c t))
  end.

Fixpoint skip (n : nat) (s : string) : string :=
  match n, s with
  | S n', String _ s' => skip n' s'
  | _, _ => s
  end.

(** [s.match(/Duration:\s*(.+)/)]: group 1 of the leftmost match. *)
Fixpoint match_duration (s : string) : option string :=
  match s with
  | EmptyString => None
  | String _ s' =>
      if startsWith s "Duration:" then
        match duration_group (skip 9 s) with
        | Some g => Some g
        | None => match_duration s'
        end
      else match_duration s'
  end.

End JSString.

(** ** JavaScript dates

    A [Date] holds a time value: milliseconds since the epoch in UTC, or
    NaN ([None]).  Day arithmetic follows the proleptic Gregorian calendar
    as ECMAScript's [MakeDay] and [YearFromTime] define it. *)
Module JSDate.
Local Open Scope Z_scope.

Definition msPerDay : Z := 86400000.
Definition msPerMinute : Z := 60000.

(** Day number of the civil date [y]-[m]-[d], month counted from 1. *)
Definition days_from_civil (y m d : Z) : Z :=
  let y' := if m <=? 2 then y - 1 else y in
  let era := y' / 400 in
  let yoe := y' - era * 400 in
  let mp := if m >? 2 then m - 3 else m + 9 in
  let doy := (153 * mp + 2) / 5 + d - 1 in
  let doe := yoe * 365 + yoe / 4 - yoe / 100 + doy in
  era * 146097 + doe - 719468.

(** The civil date of a day number. *)
Definition civil_from_days (z : Z) : Z * Z * Z :=
  let z' := z + 719468 in
  let era := z' / 146097 in
  let doe := z' - era * 146097 in
  let yoe := (doe - doe / 1460 + doe / 36524 - doe / 146096) / 365 in
  let doy := doe - (365 * yoe + yoe / 4 - yoe / 100) in
  let mp := (5 * doy + 2) / 153 in
  let d := doy - (153 * mp + 2) / 5 + 1 in
  let m := if mp <? 10 then mp + 3 else mp - 9 in
  let y := yoe + era * 400 in
  (if m <=? 2 then y + 1 else y, m, d).

(** [TimeClip] *)
Definition TimeClip (t : Z) : option Z :=
  if Z.abs t <=? 8640000000000000 then Some t else None.

Definition digit (n : Z) : ascii := ascii_of_nat (48 + Z.to_nat (n mod 10)).

(** [n] in decimal, [w] digits wide, zero padded. *)
Fixpoint pad (w : nat) (n : Z) : string :=
  match w with
  | O => EmptyString
  | S w' => (pad w' (n / 10) +:+ String (digit n) EmptyString)
  end.

Definition year_string (y : Z) : string :=
  if (0 <=? y) && (y <=? 9999) then pad 4 y
  else ((if 0 <=? y then "+" else "-") +:+ pad 6 (Z.abs y)).

(** [Date.prototype.toISOString]: a [RangeError] for an invalid date. *)
Definition toISOString (tv : option Z) : option string :=
  match tv with
  | None => None
  | Some t =>
      let '(y, m, d) := civil_from_days (t / msPerDay) in
      let r := t mod msPerDay in
      Some (year_string y +:+ "-" +:+ pad 2 m +:+ "-" +:+ pad 2 d +:+ "T"
            +:+ pad 2 (r / 3600000) +:+ ":" +:+ pad 2 (r / 60000 mod 60)
            +:+ ":" +:+ pad 2 (r / 1000 mod 60) +:+ "." +:+ pad 3 (r mod 1000)
            +:+ "Z")
  end.

Fixpoint number (acc : Z) (s : string) : Z :=
  match s with
  | EmptyString => acc
  | String c s' => number (10 * acc + Z.of_nat (JSString.code c) - 48) s'
  end.

Import JSString.

(** [new Date(s)] in V8 for the header form [YYYY/MM/DD].  The form is
    not ISO 8601, so V8's legacy parser reads it, and reads it as a LOCAL
    date: midnight of that day in the host's zone, [tz] minutes east of
    UTC.  The parser accepts a month in 1..12 and a day in 1..31 (a day
    past the month's end rolls over through [MakeDay]); three numbers
    whose first is a possible day are read month/day/year; a year below
    50 is 20xx and below 100 is 19xx.  Other texts are outside this
    model: it reads them as invalid, which V8 does for some ([today]) and
    not for others (a month by its name, an ISO date, numbers of one
    digit).  The properties below use it at the header form and at
    [today] only. *)
Definition V8_parse (tz : Z) (s : string) : option Z :=
  match match_here [D; D; D; D; L "/"; D; D; L "/"; D; D] s with
  | Some (_, String _ _) | None => None
  | Some (_, EmptyString) =>
      let c0 := number 0 (String.substring 0 4 s) in
      let c1 := number 0 (String.substring 5 2 s) in
      let c2 := number 0 (String.substring 8 2 s) in
      let '(year, month, day) :=
        if (1 <=? c0) && (c0 <=? 31) then (c2, c0, c1) else (c0, c1, c2) in
      let year :=
        if year <=? 49 then year + 2000
        else if year <=? 99 then year + 1900 else year in
      if (1 <=? month) && (month <=? 12) && (1 <=? day) && (day <=? 31) then
        TimeClip ((days_from_civil year month 1 + day - 1) * msPerDay
                  - tz * msPerMinute)
      else None
  end.

End JSDate.

(** ** JavaScript arrays and objects *)
Module JSArray.

Section Sort.
Context {A : Type}.
(** [le a b]: the comparator does not put [b] before [a]. *)
Variable le : A -> A -> bool.

Fixpoint insert (x : A) (l : list A) : list A :=
  match l with
  | [] => [x]
  | y :: l' => if le x y then x :: y :: l' else y :: insert x l'
  end.

(** [Array.prototype.sort]: the stable sorted arrangement, which is
    the only result the language allows for a consistent comparator. *)
Fixpoint sort (l : list A) : list A :=
  match l with
  | [] => []
  | x :: l' => insert x (sort l')
  end.
End Sort.

End JSArray.

(** An object used as a dictionary whose keys are neither array indices
    nor names of inherited properties (the route's keys all contain a
    dash): its properties are enumerated, and serialised, in the order of
    their creation.  Hence a list of pairs with distinct keys. *)
Module JSObject.

Section Obj.
Context {V : Type}.
Definition t := list (string * V).

(** [o[k]] *)
Fixpoint get (k : string) (o : t) : option V :=
  match o with
  | [] => None
  | (k', v) :: o' => if String.eqb k' k then Some v else get k o'
  end.

(** [o[k] = v]: an existing property keeps its place, a new one goes
    last. *)
Fixpoint set (k : string) (v : V) (o : t) : t :=
  match o with
  | [] => [(k, v)]
  | (k', v') :: o' =>
      if String.eqb k' k then (k', v) :: o' else (k', v') :: set k v o'
  end.

(** [Object.keys(o)] *)
Definition keys (o : t) : list string := map fst o.

(** [Object.values(o)] *)
Definition values (o : t) : list V := map snd o.
End Obj.
Arguments t : clear implicits.

End JSObject.

(** ** The route: data *)

Module MonopolyEvent.
Record t := mk {
  name : string;
  startTime : string;
  endTime : string;
  duration : string;
  type : option string;
  imageUrl : option string;
}.
End MonopolyEvent.

(** [interface EventsByDate { [date: string]: MonopolyEvent[] }] *)
Abbreviation EventsByDate := (JSObject.t (list MonopolyEvent.t)).

(** What the extractor pushes for each image of a date section. *)
Module RawEvent.
Record t := mk {
  date : string;
  name : string;
  timeText : string;
  durationText : string;
  imageUrl : string;
}.
End RawEvent.

Inductive Status := pending | running | success | failed.

Global Instance Status_eq_dec : EqDecision Status.
Proof. solve_decision. Defined.

(** The [result] objects the route stores in a method. *)
Inductive Result :=
| browserLaunched
| pageLoaded
| eventsFound (totalFound : nat)
| totals (totalEvents totalDates : nat)
| formatted.

Module ScrapingMethod.
Record t := mk {
  name : string;
  status : Status;
  result : option Result;
  error : option string;
  duration : option Z;
}.

Definition set_status (v : Status) (m : t) : t :=
  mk (name m) v (result m) (error m) (duration m).
Definition set_result (v : Result) (m : t) : t :=
  mk (name m) (status m) (Some v) (error m) (duration m).
Definition set_error (v : string) (m : t) : t :=
  mk (name m) (status m) (result m) (Some v) (duration m).
Definition set_duration (v : Z) (m : t) : t :=
  mk (name m) (status m) (result m) (error m) (Some v).
End ScrapingMethod.

(** A thrown value: an [Error] with its message, or something that is not
    an instance of [Error]. *)
Inductive Thrown := Error (message : string) | NotError.

(** One line of the response stream, before [JSON.stringify] (which leaves
    out the properties that are [undefined]). *)
Inductive Chunk :=
| Progress (progress : Z) (methods : list ScrapingMethod.t)
| Final (success : bool) (events : option EventsByDate)
        (successfulMethod : option string) (error : option string).

(** What [page.evaluate] resolves to. *)
Inductive RawEventData :=
| EventBoxNotFound
| Extracted (events : list RawEvent.t).

Inductive LogEntry :=
| ErrorParsingEvent (event : RawEvent.t) (e : Thrown)
| ErrorClosingBrowser (e : Thrown).

(** The host's part in one run of the route. *)
Record Env := {
  (** the time value of [new Date(s)] *)
  Date_parse : string -> option Z;
  (** the successive readings of [Date.now()] *)
  Date_now : nat -> Z;
  (** does [import("puppeteer")] resolve? *)
  import_puppeteer : bool;
  (** what [puppeteer.default.launch] throws, if it does *)
  launch : option Thrown;
  (** the first exception of the page operations of step 2 ([newPage],
      [setViewport], [setUserAgent], [setExtraHTTPHeaders], [goto],
      [waitForSelector], [waitForTimeout]), if there is one *)
  load_page : option Thrown;
  (** [page.evaluate] rejects, or resolves to the extractor's result *)
  evaluate : Thrown + RawEventData;
  (** what [browser.close()] throws, if it does: the call that ends the
      [try], and the call of the [catch] *)
  close_done : option Thrown;
  close_cleanup : option Thrown;
}.

(** ** Steps 4 and 5: the normaliser *)
Module Normalizer.
Import JSString.

(** [timeMatch[i].replace(/\//g, "-").replace(" ", "T")] *)
Definition isoTime (s : string) : string :=
  replaceFirst " " "T" (replaceAll "/" "-" s).

(** The chain of keyword tests on the lower-cased name. *)
Definition eventType (name : string) : string :=
  let name := toLowerCase name in
  if includes name "milestone" then "Milestone"
  else if includes name "partners" || includes name "jedi" then "Partner Event"
  else if includes name "bash" || includes name "builders" then "Tournament"
  else if includes name "roller" || includes name "high" then "Quick Event"
  else if includes name "heist" || includes name "mega" then "Tournament"
  else if includes name "chance" || includes name "lucky" then "Quick Event"
  else if includes name "season" || includes name "league" then "Season"
  else if includes name "blitz" || includes name "golden" then "Special Event"
  else if includes name "boom" || includes name "sticker" then "Special Event"
  else "Event".

(** The [monopolyEvent] of a fragment whose time text matched with
    groups [g1] and [g2]. *)
Definition monopolyEvent (event : RawEvent.t) (g1 g2 : string)
  : MonopolyEvent.t :=
  let startTimeStr := isoTime g1 in
  let endTimeStr := isoTime g2 in
  let duration :=
    match match_duration (RawEvent.durationText event) with
    | Some g => trim g
    | None => "Unknown"
    end in
  MonopolyEvent.mk (RawEvent.name event) startTimeStr endTimeStr duration
    (Some (eventType (RawEvent.name event)))
    (Some (if startsWith (RawEvent.imageUrl event) "http"
           then RawEvent.imageUrl event
           else "https://monopolygo.game" +:+ RawEvent.imageUrl event)).

(** [date.toISOString().split("T")[0]] *)
Definition formattedDate (env : Env) (event : RawEvent.t) : option string :=
  match JSDate.toISOString (Date_parse env (RawEvent.date event)) with
  | Some iso => Some (splitHead "T" iso)
  | None => None
  end.

(** The body of the [try] for one fragment, on the object
    [eventsByDate]: what it throws, if it does, and the object
    afterwards. *)
Definition parseEvent (env : Env) (event : RawEvent.t)
    (eventsByDate : EventsByDate) : option Thrown * EventsByDate :=
  match formattedDate env event with
  | None => (Some (Error "Invalid time value"), eventsByDate)
  | Some formattedDate =>
      let eventsByDate :=
        match JSObject.get formattedDate eventsByDate with
        | Some _ => eventsByDate
        | None => JSObject.set formattedDate [] eventsByDate
        end in
      match match_range (RawEvent.timeText event) with
      | None => (None, eventsByDate)
      | Some (g1, g2) =>
          match JSObject.get formattedDate eventsByDate with
          | Some bucket =>
              (None,
               JSObject.set formattedDate
                 (bucket ++ [monopolyEvent event g1 g2]) eventsByDate)
          | None =>
              (Some (Error "Cannot read properties of undefined (reading 'push')"),
               eventsByDate)
          end
      end
  end.

(** [rawEventData.events.forEach(...)]: each fragment in turn, a thrown
    value logged and dropped. *)
Fixpoint forEach (env : Env) (events : list RawEvent.t)
    (acc : EventsByDate * list LogEntry) : EventsByDate * list LogEntry :=
  match events with
  | [] => acc
  | event :: rest =>
      let '(eventsByDate, console) := acc in
      match parseEvent env event eventsByDate with
      | (None, eventsByDate') => forEach env rest (eventsByDate', console)
      | (Some e, eventsByDate') =>
          forEach env rest
            (eventsByDate', console ++ [ErrorParsingEvent event e])
      end
  end.

(** The comparator of step 5, [a.startTime.localeCompare(b.startTime)],
    on the texts [isoTime] produces: they carry their digits at the same
    places, so the collation order is the order of the code units. *)
Definition localeCompare_le (a b : MonopolyEvent.t) : bool :=
  String.leb (MonopolyEvent.startTime a) (MonopolyEvent.startTime b).

(** Step 5: the keys sorted by code units, each with its sorted list.
    ([sort] works in place on the array that [eventsByDate] holds; the
    route does not read [eventsByDate] again.) *)
Definition sortedEventsByDate (eventsByDate : EventsByDate) : EventsByDate :=
  fold_left
    (fun sorted date =>
       match JSObject.get date eventsByDate with
       | Some evs =>
           JSObject.set date (JSArray.sort localeCompare_le evs) sorted
       | None => sorted
       end)
    (JSArray.sort String.leb (JSObject.keys eventsByDate)) [].

End Normalizer.

(** ** The route: the stream's [start] *)
Module Route.
Import JSString.

(** What [start] reads and writes: the [methods] array, the stream
    (its queued chunks, and whether [controller.close()] was called),
    the variable [browser] ([false] for [null]), the console, and how
    often the clock was read. *)
Record State := mkState {
  methods : list ScrapingMethod.t;
  chunks : list Chunk;
  closed : bool;
  browser : bool;
  console : list LogEntry;
  clock_reads : nat;
}.

(** A statement: it ends normally with a value or throws, and leaves a
    state either way. *)
Definition M (A : Type) : Type := State -> (Thrown + A) * State.

Global Instance M_ret : MRet M := fun A x s => (inr x, s).
Global Instance M_bind : MBind M := fun A B f m s =>
  match m s with
  | (inr x, s') => f x s'
  | (inl e, s') => (inl e, s')
  end.

Definition throw {A} (e : Thrown) : M A := fun s => (inl e, s).

(** [try { body } catch (e) { handler }] *)
Definition try_catch {A} (body : M A) (handler : Thrown -> M A) : M A :=
  fun s =>
    match body s with
    | (inl e, s') => handler e s'
    | r => r
    end.

Definition gets {A} (f : State -> A) : M A := fun s => (inr (f s), s).
Definition modify (f : State -> State) : M unit := fun s => (inr tt, f s).

Definition with_methods (f : list ScrapingMethod.t -> list ScrapingMethod.t)
    (s : State) : State :=
  mkState (f (methods s)) (chunks s) (closed s) (browser s) (console s)
    (clock_reads s).

(** [methods[i].field = v] *)
Definition update (i : nat) (f : ScrapingMethod.t -> ScrapingMethod.t)
  : M unit :=
  modify (with_methods (alter f i)).

Section Run.
Variable env : Env.

(** [Date.now()] *)
Definition now : M Z := fun s =>
  (inr (Date_now env (clock_reads s)),
   mkState (methods s) (chunks s) (closed s) (browser s) (console s)
     (S (clock_reads s))).

(** [controller.enqueue]: a [TypeError] once the stream is closed.  The
    reader of the response is taken to stay connected, so that only
    [start] itself closes the stream. *)
Definition enqueue (c : Chunk) : M unit := fun s =>
  if closed s then
    (inl (Error "Invalid state: Controller is already closed"), s)
  else
    (inr tt,
     mkState (methods s) (chunks s ++ [c]) false (browser s) (console s)
       (clock_reads s)).

(** [controller.close()] *)
Definition controller_close : M unit := fun s =>
  if closed s then
    (inl (Error "Invalid state: Controller is already closed"), s)
  else
    (inr tt,
     mkState (methods s) (chunks s) true (browser s) (console s)
       (clock_reads s)).

Definition console_error (l : LogEntry) : M unit :=
  modify (fun s =>
    mkState (methods s) (chunks s) (closed s) (browser s)
      (console s ++ [l]) (clock_reads s)).

(** [sendProgress(progress, [...methods])] *)
Definition sendProgress (progress : Z) : M unit :=
  updatedMethods ← gets methods;
  enqueue (Progress progress updatedMethods).

Definition sendFinal (success : bool) (events : option EventsByDate)
    (successfulMethod error : option string) : M unit :=
  enqueue (Final success events successfulMethod error);;
  controller_close.

(** [puppeteer = await import("puppeteer")] in its own [try]. *)
Definition import : M unit :=
  if import_puppeteer env then mret tt
  else throw (Error
    "Puppeteer not available. Using fallback method with simulated browser behavior.").

(** [browser = await puppeteer.default.launch(...)] *)
Definition launch_browser : M unit :=
  match launch env with
  | Some e => throw e
  | None =>
      modify (fun s =>
        mkState (methods s) (chunks s) (closed s) true (console s)
          (clock_reads s))
  end.

(** [newPage] up to [waitForTimeout] *)
Definition page_operations : M unit :=
  match load_page env with
  | Some e => throw e
  | None => mret tt
  end.

(** [await page.evaluate(...)] and the test of [rawEventData.error] *)
Definition extract : M (list RawEvent.t) :=
  match evaluate env with
  | inl e => throw e
  | inr EventBoxNotFound => throw (Error "Event box not found")
  | inr (Extracted events) => mret events
  end.

(** [await browser.close()] *)
Definition browser_close (outcome : option Thrown) : M unit :=
  match outcome with
  | Some e => throw e
  | None => mret tt
  end.

(** The [forEach] of step 4 on a fresh object. *)
Definition parse (events : list RawEvent.t) : M EventsByDate := fun s =>
  let r := Normalizer.forEach env events ([], console s) in
  (inr r.1,
   mkState (methods s) (chunks s) (closed s) (browser s) r.2
     (clock_reads s)).

(** The body of the outer [try]. *)
Definition try_block : M unit :=
  update 0 (ScrapingMethod.set_status running);;
  sendProgress 10;;
  startTime ← now;
  import;;
  launch_browser;;
  update 0 (ScrapingMethod.set_status success);;
  t ← now;
  update 0 (ScrapingMethod.set_duration (t - startTime));;
  update 0 (ScrapingMethod.set_result browserLaunched);;
  sendProgress 25;;

  update 1 (ScrapingMethod.set_status running);;
  method2StartTime ← now;
  page_operations;;
  update 1 (ScrapingMethod.set_status success);;
  t ← now;
  update 1 (ScrapingMethod.set_duration (t - method2StartTime));;
  update 1 (ScrapingMethod.set_result pageLoaded);;
  sendProgress 50;;

  update 2 (ScrapingMethod.set_status running);;
  method3StartTime ← now;
  events ← extract;
  update 2 (ScrapingMethod.set_status success);;
  t ← now;
  update 2 (ScrapingMethod.set_duration (t - method3StartTime));;
  update 2 (ScrapingMethod.set_result (eventsFound (length events)));;
  sendProgress 75;;

  update 3 (ScrapingMethod.set_status running);;
  method4StartTime ← now;
  eventsByDate ← parse events;
  update 3 (ScrapingMethod.set_status success);;
  t ← now;
  update 3 (ScrapingMethod.set_duration (t - method4StartTime));;
  update 3 (ScrapingMethod.set_result
              (totals (length (concat (JSObject.values eventsByDate)))
                      (length (JSObject.keys eventsByDate))));;
  sendProgress 90;;

  update 4 (ScrapingMethod.set_status running);;
  method5StartTime ← now;
  let sortedEventsByDate := Normalizer.sortedEventsByDate eventsByDate in
  update 4 (ScrapingMethod.set_status success);;
  t ← now;
  update 4 (ScrapingMethod.set_duration (t - method5StartTime));;
  update 4 (ScrapingMethod.set_result formatted);;
  sendProgress 100;;

  browser_close (close_done env);;
  sendFinal true (Some sortedEventsByDate)
    (Some "Puppeteer Browser Automation") None.

Definition sampleEvents : EventsByDate :=
  [ ("2025-05-29",
     [ MonopolyEvent.mk "High Roller" "2025-05-29T01:00:00"
         "2025-05-29T06:59:00" "5 Minutes" (Some "Quick Event")
         (Some "https://api.monopolygo.game/storage/v1/object/public/event/icon/highroller.png");
       MonopolyEvent.mk "Mega Heist" "2025-05-29T07:00:00"
         "2025-05-29T12:59:00" "45 Minutes" (Some "Tournament")
         (Some "https://api.monopolygo.game/storage/v1/object/public/event/icon/heist.png") ]);
    ("2025-05-30",
     [ MonopolyEvent.mk "Golden Blitz" "2025-05-30T13:00:00"
         "2025-05-31T12:59:59" "Whole Time" (Some "Special Event")
         (Some "https://api.monopolygo.game/storage/v1/object/public/event/icon/goldsticker.png") ]) ].

(** [methods.find((m) => m.status === "running")] and the two
    assignments to what it finds. *)
Definition mark_failed (error : Thrown) : M unit :=
  ms ← gets methods;
  match list_find (fun m => ScrapingMethod.status m = running) ms with
  | Some (i, _) =>
      update i (ScrapingMethod.set_status failed);;
      update i (ScrapingMethod.set_error
                  match error with
                  | Error message => message
                  | NotError => "Unknown error"
                  end)
  | None => mret tt
  end.

(** [error instanceof Error && error.message.includes("Puppeteer not available")] *)
Definition not_available (error : Thrown) : bool :=
  match error with
  | Error message => includes message "Puppeteer not available"
  | NotError => false
  end.

(** The outer [catch (error)]. *)
Definition catch_block (error : Thrown) : M unit :=
  b ← gets browser;
  (if b : bool then
     try_catch (browser_close (close_cleanup env))
       (fun e => console_error (ErrorClosingBrowser e))
   else mret tt);;
  mark_failed error;;
  if not_available error then
    sendProgress 100;;
    sendFinal false (Some sampleEvents) None
      (Some "Puppeteer not available in this environment. Sample data provided. To get real data, deploy this app to a server with Puppeteer support.")
  else
    sendProgress 100;;
    sendFinal false None None
      (Some match error with
            | Error message => message
            | NotError => "Unknown error occurred"
            end).

Definition initial : State :=
  mkState
    [ ScrapingMethod.mk "Puppeteer Browser Automation" pending None None None;
      ScrapingMethod.mk "Wait for Dynamic Content" pending None None None;
      ScrapingMethod.mk "Extract Events from DOM" pending None None None;
      ScrapingMethod.mk "Parse Event Details" pending None None None;
      ScrapingMethod.mk "Format JSON Output" pending None None None ]
    [] false false [] 0.

(** [start(controller)]: how it ends and the state it leaves. *)
Definition start : (Thrown + unit) * State :=
  try_catch try_block catch_block initial.

(** How the outer [try] ends. *)
Definition tried : (Thrown + unit) * State := try_block initial.

End Run.

(** The chunks the response carries. *)
Definition GET (env : Env) : list Chunk := chunks (snd (start env)).

End Route.

(** ** More of JavaScript's strings *)
Module JSText.
Import JSString.

(** [s.replace(pat, rep)] for a string pattern: its first occurrence. *)
Fixpoint replace (pat rep s : string) {struct s} : string :=
  if startsWith s pat then rep +:+ skip (String.length pat) s
  else match s with
       | EmptyString => EmptyString
       | String c s' => String c (replace pat rep s')
       end.

(** [s.match(/Events for (.+)/)]: group 1 of the leftmost match, the
    rest of the line after the words when that rest is not empty. *)
Fixpoint match_header (s : string) : option string :=
  match s with
  | EmptyString => None
  | String _ s' =>
      if startsWith s "Events for " then
        match skip 11 s with
        | String c t =>
            if is_line_terminator c then match_header s'
            else Some (takeLine (String c t))
        | EmptyString => match_header s'
        end
      else match_header s'
  end.

(** [a || b] on an attribute value and a text: [null] and the empty
    text are falsy. *)
Definition or_else (a : option string) (b : string) : string :=
  match a with
  | Some (String c s) => String c s
  | _ => b
  end.

End JSText.

(** ** The document

    The page as the extractor sees it: a tree of elements and texts.
    A node is addressed by the child indices that lead to it from the
    root element. *)
Module DOM.

#[warnings="-register-all"]
Inductive Node :=
| Text (data : string)
| Element (localName : string) (attributes : list (string * string))
    (childNodes : list Node).

Definition Path := list nat.

(** [node.textContent] *)
Fixpoint textContent (n : Node) : string :=
  match n with
  | Text data => data
  | Element _ _ cs =>
      (fix all (cs : list Node) : string :=
         match cs with
         | [] => EmptyString
         | c :: cs' => textContent c +:+ all cs'
         end) cs
  end.

(** [element.getAttribute(name)] *)
Definition getAttribute (name : string) (n : Node) : option string :=
  match n with
  | Text _ => None
  | Element _ attrs _ =>
      match list_find (fun a => a.1 = name) attrs with
      | Some (_, (_, v)) => Some v
      | None => None
      end
  end.

Definition is_element (n : Node) : bool :=
  match n with Element _ _ _ => true | Text _ => false end.

(** The element descendants of [n] in document order, each with its
    path; [base] is the path of [n]. *)
Fixpoint descendants (base : Path) (n : Node) : list (Path * Node) :=
  match n with
  | Text _ => []
  | Element _ _ cs =>
      (fix all (i : nat) (cs : list Node) : list (Path * Node) :=
         match cs with
         | [] => []
         | c :: cs' =>
             (if is_element c then [(base ++ [i], c)] else [])
             ++ descendants (base ++ [i]) c ++ all (S i) cs'
         end) 0 cs
  end.

(** The node at a path. *)
Fixpoint node_at (root : Node) (p : Path) : option Node :=
  match p with
  | [] => Some root
  | i :: p' =>
      match root with
      | Element _ _ cs =>
          match cs !! i with
          | Some c => node_at c p'
          | None => None
          end
      | Text _ => None
      end
  end.

(** The tokens of a [class] attribute: split at ASCII white space. *)
Definition is_ascii_whitespace (c : ascii) : bool :=
  let n := nat_of_ascii c in
  (n =? 9) || (n =? 10) || (n =? 12) || (n =? 13) || (n =? 32).

Fixpoint tokens (cur : string) (s : string) : list string :=
  match s with
  | EmptyString => match cur with EmptyString => [] | _ => [cur] end
  | String c s' =>
      if is_ascii_whitespace c then
        match cur with
        | EmptyString => tokens EmptyString s'
        | _ => cur :: tokens EmptyString s'
        end
      else tokens (cur +:+ String c EmptyString) s'
  end.

(** The selectors of the route: a type selector, with a class or not. *)
Inductive Selector :=
| Type_ (localName : string)
| TypeClass (localName : string) (class : string).

Definition has_name (name : string) (n : Node) : bool :=
  match n with
  | Element l _ _ => String.eqb l name
  | Text _ => false
  end.

Definition matches (sel : Selector) (n : Node) : bool :=
  match sel with
  | Type_ l => has_name l n
  | TypeClass l c =>
      has_name l n
      && bool_decide (c ∈ tokens EmptyString (default EmptyString (getAttribute "class" n)))
  end.

(** [element.querySelectorAll(sel)]: the matching descendants. *)
Definition querySelectorAll (sel : Selector) (base : Path) (n : Node)
  : list (Path * Node) :=
  filter (fun d => matches sel d.2) (descendants base n).

(** [element.querySelector(sel)]: the first of them. *)
Definition querySelector (sel : Selector) (base : Path) (n : Node)
  : option (Path * Node) :=
  head (querySelectorAll sel base n).

(** [document.querySelector(sel)]: the root element counts too. *)
Definition document_querySelector (sel : Selector) (root : Node)
  : option (Path * Node) :=
  head (filter (fun d => matches sel d.2) (([], root) :: descendants [] root)).

(** [element.closest(sel)] for the element at path [p], given from its
    last index to its first: the element itself or its nearest ancestor
    that matches. *)
Fixpoint closest_from (sel : Selector) (root : Node) (rp : list nat)
  : option Path :=
  let here :=
    match node_at root (rev rp) with
    | Some n => matches sel n
    | None => false
    end in
  if here then Some (rev rp)
  else match rp with
       | [] => None
       | _ :: rp' => closest_from sel root rp'
       end.

Definition closest (sel : Selector) (root : Node) (p : Path) : option Path :=
  closest_from sel root (rev p).

(** [element.parentElement]: the root element has none. *)
Definition parentElement (p : Path) : option Path :=
  match rev p with
  | [] => None
  | _ :: rp' => Some (rev rp')
  end.

End DOM.

(** ** Step 3: the function given to [page.evaluate] *)
Module Extractor.
Import JSString JSText DOM.

(** [node.textContent?.trim() || ""] *)
Definition text (n : Node) : string := trim (textContent n).

(** The scan of the [div]s of a container: the last text with a time
    range, the last text with the label. *)
Definition scan (allDivs : list (Path * Node)) : string * string :=
  fold_left
    (fun '(timeText, durationText) div =>
       let text := text div.2 in
       (if match_range text is Some _ then text else timeText,
        if includes text "Duration:" then text else durationText))
    allDivs (EmptyString, EmptyString).

(** The body of [images.forEach]: what it pushes, if it does. *)
Definition image (document : Node) (dateStr : string) (img : Path * Node)
  : option RawEvent.t :=
  let eventName :=
    or_else (getAttribute "title" img.2)
      (or_else (getAttribute "alt" img.2) EmptyString) in
  match eventName with
  | EmptyString => None
  | _ =>
      let cleanName := trim (replace "Monopoly Go Event Name: " EmptyString eventName) in
      match closest (Type_ "div") document img.1 with
      | None => None
      | Some div =>
          match parentElement div with
          | None => None
          | Some eventContainer =>
              match node_at document eventContainer with
              | None => None
              | Some container =>
                  let '(timeText, durationText) :=
                    scan (querySelectorAll (Type_ "div") eventContainer container) in
                  let imageUrl := or_else (getAttribute "src" img.2) EmptyString in
                  Some (RawEvent.mk dateStr cleanName timeText durationText imageUrl)
              end
          end
      end
  end.

(** The body of [dateItems.forEach]: the fragments of one list item. *)
Definition dateItem (document : Node) (li : Path * Node) : list RawEvent.t :=
  match querySelector (Type_ "span") li.1 li.2 with
  | None => []
  | Some dateSpan =>
      let dateText := text dateSpan.2 in
      if negb (includes dateText "Events for") then []
      else
        match match_header dateText with
        | None => []
        | Some dateStr =>
            omap (image document dateStr) (querySelectorAll (Type_ "img") li.1 li.2)
        end
  end.

(** The function itself, on the document of the page. *)
Definition extract (document : Node) : RawEventData :=
  match document_querySelector (TypeClass "ul" "events_eventBox__nV6sM") document with
  | None => EventBoxNotFound
  | Some eventBox =>
      Extracted
        (flat_map (dateItem document)
           (querySelectorAll (Type_ "li") eventBox.1 eventBox.2))
  end.

End Extractor.

(** ** The page: [scrapeEvents]

    The component's state without [estimatedTime], a floating-point
    estimate that nothing else reads. *)
Module Client.
Import JSString JSText.

Record State := mk {
  events : option EventsByDate;
  loading : bool;
  error : option string;
  scrapingMethods : list ScrapingMethod.t;
  progress : Z;
  successfulMethod : option string;
}.

(** What [JSON.parse(line)] and the reading of [data.type] give: an
    exception, a value that is neither kind of record, or a record of the
    route. *)
Inductive Parsed := Throws | Ignored | Data (data : Chunk).

(** What [fetch] and the reader give: a rejection, a response that is
    not ok, a response without body, or the texts of the chunks read
    before the stream is done or before [read] rejects. *)
Inductive Response :=
| Rejected (err : Thrown)
| NotOk (status : nat) (statusText : string)
| NoBody
| Body (values : list string) (failure : option Thrown).

(** [s.split("\n")] *)
Fixpoint split (s : string) : list string :=
  match s with
  | EmptyString => [EmptyString]
  | String c s' =>
      if Ascii.eqb c "010" then EmptyString :: split s'
      else match split s' with
           | piece :: pieces => String c piece :: pieces
           | [] => [String c EmptyString]
           end
  end.

(** The two branches on [data.type]. *)
Definition handle (st : State) (data : Chunk) : State :=
  match data with
  | Progress p ms =>
      mk (events st) (loading st) (error st) ms p (successfulMethod st)
  | Final ok evs method err =>
      match ok, evs with
      | true, Some _ =>
          mk evs (loading st) (error st) (scrapingMethods st) (progress st)
            method
      | _, _ =>
          mk (events st) (loading st)
            (Some (or_else err "Failed to scrape events"))
            (scrapingMethods st) (progress st) (successfulMethod st)
      end
  end.

(** The body of [for (const line of lines)], on the state and the
    console. *)
Definition line (parse : string -> Parsed) (acc : State * list string)
    (l : string) : State * list string :=
  match trim l with
  | EmptyString => acc
  | _ =>
      match parse l with
      | Data data => (handle acc.1 data, acc.2)
      | Ignored => acc
      | Throws => (acc.1, acc.2 ++ [l])
      end
  end.

(** One turn of the [while] loop with a chunk in hand: state and
    console, and the buffer. *)
Definition read (parse : string -> Parsed)
    (acc : State * list string * string) (value : string)
  : State * list string * string :=
  let buffer := acc.2 +:+ value in
  let lines := split buffer in
  (fold_left (line parse) (removelast lines) acc.1,
   default EmptyString (last lines)).

Definition set_error (e : string) (st : State) : State :=
  mk (events st) (loading st) (Some e) (scrapingMethods st) (progress st)
    (successfulMethod st).

Definition set_loading (b : bool) (st : State) : State :=
  mk (events st) b (error st) (scrapingMethods st) (progress st)
    (successfulMethod st).

(** [err instanceof Error ? err.message : "An error occurred"] *)
Definition message (err : Thrown) : string :=
  match err with Error m => m | NotError => "An error occurred" end.

(** The state after the six resets. *)
Definition reset : State := mk None true None [] 0 None.

(** The number of a status in a template literal. *)
Definition decimal (n : nat) : string := NilEmpty.string_of_uint (Nat.to_uint n).

(** [scrapeEvents]: the state it leaves and what it wrote to the
    console. *)
Definition scrapeEvents (parse : string -> Parsed) (response : Response)
  : State * list string :=
  let after :=
    match response with
    | Rejected err => (set_error (message err) reset, [])
    | NotOk status statusText =>
        (set_error ("HTTP " +:+ decimal status +:+ ": " +:+ statusText) reset, [])
    | NoBody => (set_error "No response body" reset, [])
    | Body values failure =>
        let r := fold_left (read parse) values (reset, [], EmptyString) in
        match failure with
        | Some err => (set_error (message err) r.1.1, r.1.2)
        | None => r.1
        end
    end in
  (set_loading false after.1, after.2).

End Client.


(** * Vocabulary of the properties *)

(** ** Orders *)

(** Strings in the order of their code units. *)
Definition str_le (a b : string) : Prop := String.leb a b = true.
Definition str_lt (a b : string) : Prop := String.ltb a b = true.

(** Events in the order of their [startTime]. *)
Definition ev_le (a b : MonopolyEvent.t) : Prop :=
  str_le (MonopolyEvent.startTime a) (MonopolyEvent.startTime b).

(** ** Time stamps *)

(** [s] is matched by [p] from its first to its last character. *)
Fixpoint shaped (p : list JSString.Tok) (s : string) {struct s} : Prop :=
  match s, p with
  | EmptyString, [] => True
  | String c s', t :: p' => JSString.tok_ok t c = true /\ shaped p' s'
  | _, _ => False
  end.

(** ** Runs of the route *)

(** Steps 4 and 5 together: what a successful run sends as [events]. *)
Definition normalize (env : Env) (events : list RawEvent.t) : EventsByDate :=
  Normalizer.sortedEventsByDate (Normalizer.forEach env events ([], [])).1.

(** The terminal record: the last chunk of the response. *)
Definition terminal (env : Env) : option Chunk := last (Route.GET env).

Definition is_progress (c : Chunk) : Prop :=
  match c with Progress _ _ => True | Final _ _ _ _ => False end.

Definition broadcast (c : Chunk) : option (list ScrapingMethod.t) :=
  match c with Progress _ ms => Some ms | Final _ _ _ _ => None end.

(** The step list of the last progress record. *)
Definition last_broadcast (env : Env) : option (list ScrapingMethod.t) :=
  last (omap broadcast (Route.GET env)).

(** How many steps of a list are running. *)
Definition running_count (ms : list ScrapingMethod.t) : nat :=
  length (filter (fun m => ScrapingMethod.status m = running) ms).

(** The step whose host call fails, counted from 1: the import and the
    launch belong to step 1, the page operations to step 2, the evaluation
    and its missing-container answer to step 3.  Steps 4 and 5 ask nothing
    of the host. *)
Definition failing_step (env : Env) : option nat :=
  if negb (import_puppeteer env) then Some 1
  else if launch env is Some _ then Some 1
  else if load_page env is Some _ then Some 2
  else match evaluate env with
       | inl _ | inr EventBoxNotFound => Some 3
       | inr (Extracted _) => None
       end.

(** The step list after a failure of step [N]. *)
Definition failed_at (N : nat) (ms : list ScrapingMethod.t) : Prop :=
  length ms = 5 /\
  forall i m, ms !! i = Some m ->
    (S i < N -> ScrapingMethod.status m = success) /\
    (S i = N -> ScrapingMethod.status m = failed
                /\ is_Some (ScrapingMethod.error m)) /\
    (N < S i -> ScrapingMethod.status m = pending).

(** The terminal record of the fallback: no success, the sample events,
    no method name, an error text that speaks of unavailability. *)
Definition fallback_terminal (env : Env) : Prop :=
  exists error,
    terminal env = Some (Final false (Some Route.sampleEvents) None (Some error))
    /\ JSString.includes error "not available" = true.

(** Every host call of the run goes well and the extractor finds
    [events]. *)
Definition smooth (env : Env) (events : list RawEvent.t) : Prop :=
  import_puppeteer env = true /\ launch env = None /\ load_page env = None
  /\ evaluate env = inr (Extracted events) /\ close_done env = None.

(** The events a fragment adds under the date key [key]: its event when
    its date text gives [key] and its time text matches, none otherwise. *)
Definition contribution (env : Env) (key : string) (g : RawEvent.t)
  : list MonopolyEvent.t :=
  if decide (Normalizer.formattedDate env g = Some key) then
    match JSString.match_range (RawEvent.timeText g) with
    | Some (g1, g2) => [Normalizer.monopolyEvent g g1 g2]
    | None => []
    end
  else [].

(** Does the date text of some fragment give [key]? *)
Definition dated (env : Env) (key : string) (events : list RawEvent.t) : bool :=
  existsb (fun g => bool_decide (Normalizer.formattedDate env g = Some key))
    events.

(** ** Concrete hosts and fragments *)

(** A host on which everything goes well and the extractor finds
    [events]; local time is [tz] minutes east of UTC. *)
Definition smooth_env (tz : Z) (events : list RawEvent.t) : Env :=
  {| Date_parse := JSDate.V8_parse tz;
     Date_now := fun n => Z.of_nat n;
     import_puppeteer := true;
     launch := None;
     load_page := None;
     evaluate := inr (Extracted events);
     close_done := None;
     close_cleanup := None |}.

(** A host whose launch fails with a message of its own that contains
    the words the [catch] looks for. *)
Definition launch_message_env : Env :=
  {| Date_parse := JSDate.V8_parse 0;
     Date_now := fun n => Z.of_nat n;
     import_puppeteer := true;
     launch := Some (Error "Puppeteer not available");
     load_page := None;
     evaluate := inr (Extracted []);
     close_done := None;
     close_cleanup := None |}.

(** A host whose page has no event box. *)
Definition no_box_env : Env :=
  {| Date_parse := JSDate.V8_parse 0;
     Date_now := fun n => Z.of_nat n;
     import_puppeteer := true;
     launch := None;
     load_page := None;
     evaluate := inr EventBoxNotFound;
     close_done := None;
     close_cleanup := None |}.

(** The step list of the first progress record. *)
Definition first_broadcast : list ScrapingMethod.t :=
  alter (ScrapingMethod.set_status running) 0 (Route.methods Route.initial).

(** A fragment whose time range runs backwards. *)
Definition backwards_fragment : RawEvent.t :=
  RawEvent.mk "2025/05/29" "High Roller"
    "2025/05/30 01:00:00 - 2025/05/29 06:59:00" "Duration: 5 Minutes"
    "/i/highroller.png".

(** A fragment whose time text is no time range. *)
Definition untimed_fragment : RawEvent.t :=
  RawEvent.mk "2025/05/29" "High Roller" "Starts soon" "Duration: 5 Minutes"
    "/i/highroller.png".

(** A fragment whose date text is no date. *)
Definition undated_fragment : RawEvent.t :=
  RawEvent.mk "today" "Mega Heist"
    "2025/05/29 07:00:00 - 2025/05/29 12:59:00" "Duration: 45 Minutes"
    "/i/heist.png".

(** The fragment of scenario A and the event the scenario expects. *)
Definition fragment_A : RawEvent.t :=
  RawEvent.mk "2025/05/29" "High Roller"
    "2025/05/29 01:00:00 - 2025/05/29 06:59:00" "Duration: 5 Minutes"
    "/i/highroller.png".

Definition event_A : MonopolyEvent.t :=
  MonopolyEvent.mk "High Roller" "2025-05-29T01:00:00" "2025-05-29T06:59:00"
    "5 Minutes" (Some "Quick Event")
    (Some "https://monopolygo.game/i/highroller.png").

(** Three more fragments and their events: a second event of the same
    date, a third one that starts when the second does and whose duration
    text is the bare label, and an event of the next date without
    duration text and with an absolute icon address. *)
Definition heist_fragment : RawEvent.t :=
  RawEvent.mk "2025/05/29" "Mega Heist"
    "2025/05/29 07:00:00 - 2025/05/29 12:59:00" "Duration: 45 Minutes"
    "/i/heist.png".

Definition heist_event : MonopolyEvent.t :=
  MonopolyEvent.mk "Mega Heist" "2025-05-29T07:00:00" "2025-05-29T12:59:00"
    "45 Minutes" (Some "Tournament")
    (Some "https://monopolygo.game/i/heist.png").

Definition bash_fragment : RawEvent.t :=
  RawEvent.mk "2025/05/29" "Builders Bash"
    "2025/05/29 07:00:00 - 2025/05/29 09:59:00" "Duration:"
    "/i/bash.png".

Definition bash_event : MonopolyEvent.t :=
  MonopolyEvent.mk "Builders Bash" "2025-05-29T07:00:00" "2025-05-29T09:59:00"
    "Unknown" (Some "Tournament")
    (Some "https://monopolygo.game/i/bash.png").

Definition blitz_fragment : RawEvent.t :=
  RawEvent.mk "2025/05/30" "Golden Blitz"
    "2025/05/30 13:00:00 - 2025/05/31 12:59:59" EmptyString
    "https://api.monopolygo.game/storage/v1/object/public/event/icon/goldsticker.png".

Definition blitz_event : MonopolyEvent.t :=
  MonopolyEvent.mk "Golden Blitz" "2025-05-30T13:00:00" "2025-05-31T12:59:59"
    "Unknown" (Some "Special Event")
    (Some "https://api.monopolygo.game/storage/v1/object/public/event/icon/goldsticker.png").

(** The four fragments in an order that is neither that of their dates
    nor that of their times, and what steps 4 and 5 make of them. *)
Definition shuffled_fragments : list RawEvent.t :=
  [blitz_fragment; heist_fragment; fragment_A; bash_fragment].

Definition shuffled_events : EventsByDate :=
  [("2025-05-29", [event_A; heist_event; bash_event]);
   ("2025-05-30", [blitz_event])].

(** ** What an object of events holds *)

(** The number of events an object holds:
    [Object.values(o).flat().length]. *)
Definition total (o : EventsByDate) : nat := length (concat (JSObject.values o)).

(** Does step 4 keep the fragment: a date from its header and a time range
    in its time text? *)
Definition accepted (env : Env) (g : RawEvent.t) : bool :=
  match Normalizer.formattedDate env g,
        JSString.match_range (RawEvent.timeText g) with
  | Some _, Some _ => true
  | _, _ => false
  end.

(** [YYYY-MM-DDTHH:MM:SS] *)
Definition iso_stamp : list JSString.Tok :=
  [JSString.D; JSString.D; JSString.D; JSString.D; JSString.L "-";
   JSString.D; JSString.D; JSString.L "-"; JSString.D; JSString.D;
   JSString.L "T"; JSString.D; JSString.D; JSString.L ":";
   JSString.D; JSString.D; JSString.L ":"; JSString.D; JSString.D].

(** The labels the route gives as [type]. *)
Definition type_labels : list string :=
  ["Event"; "Milestone"; "Partner Event"; "Tournament"; "Quick Event";
   "Season"; "Special Event"].

(** White space from the first to the last character. *)
Fixpoint white (s : string) : bool :=
  match s with
  | EmptyString => true
  | String c s' => JSString.is_space c && white s'
  end.

(** ** The records of a response *)

(** The progress values of the records of a response, in order. *)
Definition progress_values (cs : list Chunk) : list Z :=
  omap (fun c => match c with Progress p _ => Some p | Final _ _ _ _ => None end) cs.

(** The values the route passes to [sendProgress] on its way through the
    [try]. *)
Definition checkpoints : list Z := [10; 25; 50; 75; 90; 100]%Z.

(** The same host with another answer to the [close] of the [catch]. *)
Definition set_close_cleanup (c : option Thrown) (env : Env) : Env :=
  {| Date_parse := Date_parse env; Date_now := Date_now env;
     import_puppeteer := import_puppeteer env; launch := launch env;
     load_page := load_page env; evaluate := evaluate env;
     close_done := close_done env; close_cleanup := c |}.

(** The texts the [catch] derives from what was thrown: for the failed
    step and for the final record. *)
Definition step_error_text (e : Thrown) : string :=
  match e with Error message => message | NotError => "Unknown error" end.
Definition final_error_text (e : Thrown) : string :=
  match e with Error message => message | NotError => "Unknown error occurred" end.

(** The optional fields of a step agree with its status. *)
Definition fields_agree (m : ScrapingMethod.t) : bool :=
  match ScrapingMethod.status m with
  | success =>
      bool_decide (is_Some (ScrapingMethod.result m))
      && bool_decide (is_Some (ScrapingMethod.duration m))
      && bool_decide (ScrapingMethod.error m = None)
  | failed =>
      bool_decide (is_Some (ScrapingMethod.error m))
      && bool_decide (ScrapingMethod.result m = None)
      && bool_decide (ScrapingMethod.duration m = None)
  | pending | running =>
      bool_decide (ScrapingMethod.result m = None)
      && bool_decide (ScrapingMethod.duration m = None)
      && bool_decide (ScrapingMethod.error m = None)
  end.

(** Successful steps first, then at most one running or failed step,
    then pending steps. *)
Fixpoint in_order (l : list Status) : bool :=
  match l with
  | [] => true
  | success :: l' => in_order l'
  | _ :: l' => forallb (fun s => bool_decide (s = pending)) l'
  end.

(** A host whose launch fails with a value that is no [Error]. *)
Definition launch_fails_env : Env :=
  {| Date_parse := JSDate.V8_parse 0;
     Date_now := fun n => Z.of_nat n;
     import_puppeteer := true;
     launch := Some NotError;
     load_page := None;
     evaluate := inr (Extracted []);
     close_done := None;
     close_cleanup := None |}.

(** A host on which all goes well until the browser is closed. *)
Definition close_fails_env : Env :=
  {| Date_parse := JSDate.V8_parse 0;
     Date_now := fun n => Z.of_nat n;
     import_puppeteer := true;
     launch := None;
     load_page := None;
     evaluate := inr (Extracted [fragment_A]);
     close_done := Some (Error "Target closed");
     close_cleanup := None |}.

(** The step list of the second progress record when the launch took
    one unit of time. *)
Definition launched_broadcast : list ScrapingMethod.t :=
  alter (fun m => ScrapingMethod.set_result browserLaunched
                    (ScrapingMethod.set_duration 1
                       (ScrapingMethod.set_status success m)))
    0 (Route.methods Route.initial).

(** ** Pages *)

(** The selector of the event box. *)
Definition eventBox_selector : DOM.Selector :=
  DOM.TypeClass "ul" "events_eventBox__nV6sM".

(** A page with one date and one event. *)
Definition page_example : DOM.Node :=
  DOM.Element "html" [] [
    DOM.Element "body" [] [
      DOM.Element "ul" [("class", "list events_eventBox__nV6sM")] [
        DOM.Element "li" [] [
          DOM.Element "span" [] [DOM.Text "  Events for 2025/05/29 "];
          DOM.Element "div" [("class", "card")] [
            DOM.Element "div" [] [
              DOM.Element "img" [("src", "/i/highroller.png");
                                 ("title", "Monopoly Go Event Name: High Roller")] []];
            DOM.Element "div" [] [DOM.Text "2025/05/29 01:00:00 - 2025/05/29 06:59:00"];
            DOM.Element "div" [] [DOM.Text "Duration: 5 Minutes"]]]]]].

(** The image of that page, with its path. *)
Definition image_example : DOM.Path * DOM.Node :=
  ([0; 0; 0; 1; 0; 0],
   DOM.Element "img" [("src", "/i/highroller.png");
                      ("title", "Monopoly Go Event Name: High Roller")] []).

(** A page whose list is of another class, and a page whose event box
    is empty. *)
Definition page_without_box : DOM.Node :=
  DOM.Element "html" [] [
    DOM.Element "body" [] [
      DOM.Element "ul" [("class", "menu")] [DOM.Element "li" [] []]]].

Definition page_with_empty_box : DOM.Node :=
  DOM.Element "html" [] [
    DOM.Element "body" [] [
      DOM.Element "ul" [("class", "events_eventBox__nV6sM")] []]].

(** A host on which everything goes well and the extractor runs on
    [document]. *)
Definition page_env (document : DOM.Node) : Env :=
  {| Date_parse := JSDate.V8_parse 0;
     Date_now := fun n => Z.of_nat n;
     import_puppeteer := true;
     launch := None;
     load_page := None;
     evaluate := inr (Extractor.extract document);
     close_done := None;
     close_cleanup := None |}.

(** ** The response as the page reads it *)

(** The text of the chunks read, in the order of their reading. *)
Definition received (values : list string) : string :=
  foldr String.append EmptyString values.

(** The lines the page handles: the pieces of the text before its last
    line feed. *)
Definition complete_lines (text : string) : list string :=
  removelast (Client.split text).

(** The response body of the route under a serialiser: every record
    followed by a line feed, as [sendProgress] and [sendFinal] queue
    them. *)
Definition wire (stringify : Chunk -> string) (cs : list Chunk) : string :=
  received (map (fun c => stringify c +:+ String "010" EmptyString) cs).

(** [stringify] and [parse] carry the records [cs] as [JSON.stringify]
    and [JSON.parse] do: the text of a record holds no line feed, is not
    blank, and is read back as the record. *)
Definition round_trip (stringify : Chunk -> string)
    (parse : string -> Client.Parsed) (cs : list Chunk) : Prop :=
  forall c, c ∈ cs ->
    Client.split (stringify c) = [stringify c]
    /\ JSString.trim (stringify c) <> EmptyString
    /\ parse (stringify c) = Client.Data c.

(** A serialiser for examples: the kind of the record and its progress. *)
Definition tag (c : Chunk) : string :=
  match c with
  | Progress p _ => "progress " +:+ Client.decimal (Z.to_nat p)
  | Final _ _ _ _ => "final"
  end.

(** The reader of [tag] on the records [cs]. *)
Definition untag (cs : list Chunk) (l : string) : Client.Parsed :=
  match find (fun c => String.eqb (tag c) l) cs with
  | Some c => Client.Data c
  | None => Client.Throws
  end.


(** ** Tactics *)

Ltac thrown e :=
  let message := fresh "message" in
  let Hinc := fresh "Hinc" in
  destruct e as [message|];
  [ destruct (JSString.includes message "Puppeteer not available") eqn:Hinc | ].

(** Every way a run can go, by what the host answers. *)
Ltac cases env :=
  let e := fresh "e" in
  let events := fresh "events" in
  destruct env as [dp dn imp la lp ev cd cc];
  destruct imp;
  [ destruct la as [e|];
    [ thrown e
    | destruct lp as [e|];
        [ destruct cc; thrown e
        | destruct ev as [e|[|events]];
            [ destruct cc; thrown e
            | destruct cc
            | destruct cd as [e|]; [ destruct cc; thrown e | ] ] ] ]
  | ].

Ltac run_in H :=
  cbv -[Normalizer.forEach Normalizer.sortedEventsByDate JSString.includes
        Z.sub length concat JSObject.values JSObject.keys Route.sampleEvents
        fst snd]
    in H;
  cbn [fst snd] in H;
  repeat match goal with
         | E : JSString.includes _ _ = _ |- _ => rewrite E in H
         end;
  cbv -[Normalizer.forEach Normalizer.sortedEventsByDate
        Z.sub length concat JSObject.values JSObject.keys Route.sampleEvents
        fst snd]
    in H;
  cbn [fst snd] in H.

(** Replace [Route.start env] and [Route.tried env] by their values, one
    goal for each way the run can go. *)
Ltac run env :=
  let r := fresh "r" in
  let t := fresh "t" in
  let Hr := fresh "Hr" in
  let Ht := fresh "Ht" in
  remember (Route.start env) as r eqn:Hr;
  remember (Route.tried env) as t eqn:Ht;
  cases env; run_in Hr; run_in Ht; subst r t; cbn [fst snd Route.chunks].

Ltac try_n n :=
  exists n; split; [lia|]; eexists _, _, _, _;
  split; [reflexivity|]; split; [reflexivity|done].

(** The first element of the list of [Hg] is not the fragment whose
    contribution [Hc] gives. *)
Ltac not_this Hg Hc :=
  apply elem_of_cons in Hg as [Hg|Hg];
  [subst; vm_compute in Hc; discriminate Hc|].

(** * Properties *)

(** ** The host model on examples *)

Example toISOString_epoch :
  JSDate.toISOString (Some 0%Z) = Some "1970-01-01T00:00:00.000Z".
Proof. reflexivity. Qed.

Example toISOString_2025 :
  JSDate.toISOString (Some 1748480523456%Z) = Some "2025-05-29T01:02:03.456Z".
Proof. reflexivity. Qed.

Example V8_parse_utc :
  JSDate.V8_parse 0 "2025/05/29" = Some 1748476800000%Z.
Proof. reflexivity. Qed.

Example V8_parse_rollover :
  JSDate.toISOString (JSDate.V8_parse 0 "2025/02/31")
  = Some "2025-03-03T00:00:00.000Z".
Proof. reflexivity. Qed.

Example match_range_ex :
  JSString.match_range "x 2025/05/29 01:00:00 - 2025/05/29 06:59:00 y"
  = Some ("2025/05/29 01:00:00", "2025/05/29 06:59:00").
Proof. reflexivity. Qed.

Example match_duration_ex :
  JSString.match_duration "Duration: 5 Minutes" = Some "5 Minutes".
Proof. reflexivity. Qed.

(** ** The order of strings by code units *)
Section StringOrder.

Lemma ascii_compare_refl c : Ascii.compare c c = Eq.
Proof. unfold Ascii.compare. apply N.compare_refl. Qed.

Lemma string_compare_refl s : String.compare s s = Eq.
Proof.
  induction s as [|c s IH]; simpl; [done|].
  by rewrite ascii_compare_refl.
Qed.

Lemma N_compare_trans c (x y z : N) :
  (x ?= y)%N = c -> (y ?= z)%N = c -> (x ?= z)%N = c.
Proof.
  destruct c; rewrite ?N.compare_eq_iff, ?N.compare_lt_iff, ?N.compare_gt_iff;
    lia.
Qed.

Lemma string_compare_trans c s1 s2 s3 :
  String.compare s1 s2 = c -> String.compare s2 s3 = c ->
  String.compare s1 s3 = c.
Proof.
  revert s2 s3.
  induction s1 as [|a s1 IH]; intros [|b s2] [|d s3]; simpl;
    try congruence.
  unfold Ascii.compare.
  destruct (N_of_ascii a ?= N_of_ascii b)%N eqn:E1;
    destruct (N_of_ascii b ?= N_of_ascii d)%N eqn:E2;
    intros H1 H2; try congruence.
  - rewrite (N_compare_trans Eq _ _ _ E1 E2). eauto.
  - apply N.compare_eq_iff in E1. by rewrite E1, E2.
  - apply N.compare_eq_iff in E1. by rewrite E1, E2.
  - apply N.compare_eq_iff in E2. by rewrite <- E2, E1.
  - by rewrite (N_compare_trans Lt _ _ _ E1 E2).
  - apply N.compare_eq_iff in E2. by rewrite <- E2, E1.
  - by rewrite (N_compare_trans Gt _ _ _ E1 E2).
Qed.

Lemma str_le_refl a : str_le a a.
Proof. unfold str_le, String.leb. by rewrite string_compare_refl. Qed.

Lemma str_le_total a b : str_le a b \/ str_le b a.
Proof. apply String.leb_total. Qed.

Lemma str_le_trans a b c : str_le a b -> str_le b c -> str_le a c.
Proof.
  unfold str_le, String.leb.
  destruct (String.compare a b) eqn:E1; [| |done];
    destruct (String.compare b c) eqn:E2; try done; intros _ _.
  - by rewrite (string_compare_trans Eq a b c).
  - apply String.compare_eq_iff in E1. subst. by rewrite E2.
  - apply String.compare_eq_iff in E2. subst. by rewrite E1.
  - by rewrite (string_compare_trans Lt a b c).
Qed.

Lemma str_lt_iff a b : str_lt a b <-> str_le a b /\ a <> b.
Proof.
  unfold str_lt, str_le, String.ltb, String.leb. split.
  - destruct (String.compare a b) eqn:E; try done. intros _. split; [done|].
    intros ->. by rewrite string_compare_refl in E.
  - intros [H Hne]. destruct (String.compare a b) eqn:E; try done.
    by apply String.compare_eq_iff in E.
Qed.

Global Instance str_le_Transitive : Transitive str_le.
Proof. intros a b c. apply str_le_trans. Qed.

End StringOrder.

(** ** [Array.prototype.sort] *)
Section SortFacts.
Context {A : Type} (le : A -> A -> bool).
Hypothesis le_total : forall a b, le a b = true \/ le b a = true.

Let R (a b : A) : Prop := le a b = true.

Lemma insert_Permutation x l : JSArray.insert le x l ≡ₚ x :: l.
Proof.
  induction l as [|y l IH]; simpl; [done|].
  destruct (le x y); [done|]. rewrite IH. apply Permutation_swap.
Qed.

Lemma sort_Permutation l : JSArray.sort le l ≡ₚ l.
Proof.
  induction l as [|x l IH]; simpl; [done|].
  by rewrite insert_Permutation, IH.
Qed.

Lemma insert_HdRel a x l :
  R a x -> HdRel R a l -> HdRel R a (JSArray.insert le x l).
Proof.
  intros Hax Hl. destruct l as [|y l]; simpl; [by constructor|].
  destruct (le x y); constructor; [done|]. by inversion Hl.
Qed.

Lemma insert_Sorted x l : Sorted R l -> Sorted R (JSArray.insert le x l).
Proof.
  induction 1 as [|y l Hl IH Hy]; simpl; [by repeat constructor|].
  destruct (le x y) eqn:E.
  - repeat constructor; done.
  - constructor; [done|]. apply insert_HdRel; [|done].
    destruct (le_total x y) as [H|H]; [congruence|done].
Qed.

Lemma sort_Sorted l : Sorted R (JSArray.sort le l).
Proof.
  induction l as [|x l IH]; simpl; [constructor|]. by apply insert_Sorted.
Qed.

End SortFacts.

(** ** Objects as dictionaries *)
Section ObjectFacts.
Context {V : Type}.
Implicit Types (o : JSObject.t V) (k : string) (v : V).

Lemma get_None o k : JSObject.get k o = None <-> k ∉ JSObject.keys o.
Proof.
  induction o as [|[k' v'] o IH]; simpl.
  - split; [intros _; apply not_elem_of_nil|done].
  - rewrite not_elem_of_cons. destruct (String.eqb_spec k' k) as [->|Hne].
    + split; [done|]. intros [? _]. congruence.
    + rewrite IH. split; [intros; split; [congruence|done]|tauto].
Qed.

Lemma get_Some_elem o k v : JSObject.get k o = Some v -> (k, v) ∈ o.
Proof.
  induction o as [|[k' v'] o IH]; simpl; [done|].
  destruct (String.eqb_spec k' k) as [->|].
  - intros [= ->]. left.
  - intros. right. auto.
Qed.

Lemma elem_get_Some o k v :
  NoDup (JSObject.keys o) -> (k, v) ∈ o -> JSObject.get k o = Some v.
Proof.
  induction o as [|[k' v'] o IH]; simpl.
  - intros _ H. by apply elem_of_nil in H.
  - intros [Hk Ho]%NoDup_cons [[= -> ->]|Hin]%elem_of_cons.
    + by rewrite String.eqb_refl.
    + destruct (String.eqb_spec k' k) as [->|]; [|auto].
      destruct Hk. apply list_elem_of_fmap. by exists (k, v).
Qed.

Lemma set_new o k v :
  k ∉ JSObject.keys o -> JSObject.set k v o = o ++ [(k, v)].
Proof.
  induction o as [|[k' v'] o IH]; simpl; [done|].
  intros [Hne Hk]%not_elem_of_cons.
  destruct (String.eqb_spec k' k); [congruence|]. by rewrite IH.
Qed.

Lemma set_keys_old o k v :
  k ∈ JSObject.keys o -> JSObject.keys (JSObject.set k v o) = JSObject.keys o.
Proof.
  induction o as [|[k' v'] o IH]; simpl.
  - intros H. by apply elem_of_nil in H.
  - intros Hin. destruct (String.eqb_spec k' k) as [->|Hne]; simpl; [done|].
    f_equal. apply IH. apply elem_of_cons in Hin as [->|]; [done|done].
Qed.

Lemma set_keys_NoDup o k v :
  NoDup (JSObject.keys o) -> NoDup (JSObject.keys (JSObject.set k v o)).
Proof.
  intros Hnd. destruct (decide (k ∈ JSObject.keys o)) as [Hin|Hin].
  - by rewrite set_keys_old.
  - rewrite set_new by done. unfold JSObject.keys. rewrite fmap_app. simpl.
    apply NoDup_app. split_and!; [done| |apply NoDup_singleton].
    intros x Hx [->|[]%elem_of_nil]%elem_of_cons. done.
Qed.

Lemma get_set_eq o k v : JSObject.get k (JSObject.set k v o) = Some v.
Proof.
  induction o as [|[k' v'] o IH]; simpl.
  - by rewrite String.eqb_refl.
  - destruct (String.eqb_spec k' k) as [->|Hne]; simpl.
    + by rewrite String.eqb_refl.
    + destruct (String.eqb_spec k' k); [done|]. apply IH.
Qed.

Lemma get_set_ne o k k' v :
  k <> k' -> JSObject.get k' (JSObject.set k v o) = JSObject.get k' o.
Proof.
  intros Hne. induction o as [|[k0 v0] o IH]; simpl.
  - destruct (String.eqb_spec k k'); [done|done].
  - destruct (String.eqb_spec k0 k) as [->|]; simpl.
    + destruct (String.eqb_spec k k'); [done|done].
    + destruct (String.eqb_spec k0 k'); [done|]. apply IH.
Qed.

Lemma set_keys_elem o k k' v :
  k' ∈ JSObject.keys (JSObject.set k v o) <-> k' = k \/ k' ∈ JSObject.keys o.
Proof.
  destruct (decide (k ∈ JSObject.keys o)) as [Hin|Hin].
  - rewrite set_keys_old by done. split; [by right|]. by intros [->|?].
  - rewrite set_new by done. unfold JSObject.keys. rewrite fmap_app. simpl.
    rewrite elem_of_app, list_elem_of_singleton. tauto.
Qed.

End ObjectFacts.

(** ** The shape of a date key *)
Section KeyShape.
Import JSString.

Lemma splitHead_app s rest :
  splitHead "T" s = s ->
  splitHead "T" (s +:+ rest) = s +:+ splitHead "T" rest.
Proof.
  induction s as [|c s IH]; simpl; [done|].
  destruct (Ascii.eqb c "T"); [done|]. intros [= H]. by rewrite IH.
Qed.

Lemma digit_not_T n : Ascii.eqb (JSDate.digit n) "T" = false.
Proof.
  unfold JSDate.digit.
  assert (Z.to_nat (n mod 10) < 10)%nat as H
    by (pose proof (Z.mod_pos_bound n 10); lia).
  destruct (Z.to_nat (n mod 10)) as [|k]; [reflexivity|].
  do 9 (destruct k as [|k]; [reflexivity|]). lia.
Qed.

Lemma splitHead_pad w n : splitHead "T" (JSDate.pad w n) = JSDate.pad w n.
Proof.
  revert n. induction w as [|w IH]; intros n; cbn [JSDate.pad]; [reflexivity|].
  rewrite splitHead_app by apply IH. cbn [splitHead]. by rewrite digit_not_T.
Qed.

Lemma splitHead_year y :
  splitHead "T" (JSDate.year_string y) = JSDate.year_string y.
Proof.
  unfold JSDate.year_string.
  destruct ((0 <=? y)%Z && (y <=? 9999)%Z); [apply splitHead_pad|].
  destruct (0 <=? y)%Z; rewrite splitHead_app by reflexivity;
    by rewrite splitHead_pad.
Qed.

Lemma includes_app s rest :
  includes (s +:+ String "-" rest) "-" = true.
Proof.
  induction s as [|c s IH].
  - by destruct rest.
  - change (includes (String c s +:+ String "-" rest) "-")
      with (startsWith (String c (s +:+ String "-" rest)) "-"
            || includes (s +:+ String "-" rest) "-").
    rewrite IH. apply orb_true_r.
Qed.

(** Every date key holds a dash: it is no array index and no name that
    an object inherits. *)
Lemma formattedDate_dash env g key :
  Normalizer.formattedDate env g = Some key -> includes key "-" = true.
Proof.
  unfold Normalizer.formattedDate, JSDate.toISOString.
  destruct (Date_parse env _) as [t|]; [|done].
  destruct (JSDate.civil_from_days _) as [[y m] d].
  intros [= <-]. rewrite splitHead_app by apply splitHead_year.
  apply includes_app.
Qed.

End KeyShape.

(** ** Steps 4 and 5 *)
Section NormalizerFacts.
Variable env : Env.
Implicit Types (o : EventsByDate) (event : RawEvent.t).

Lemma localeCompare_le_total a b :
  Normalizer.localeCompare_le a b = true
  \/ Normalizer.localeCompare_le b a = true.
Proof. apply String.leb_total. Qed.

Global Instance ev_le_Transitive : Transitive ev_le.
Proof. intros a b c. apply str_le_trans. Qed.

Lemma parseEvent_NoDup event o :
  NoDup (JSObject.keys o) ->
  NoDup (JSObject.keys (Normalizer.parseEvent env event o).2).
Proof.
  intros Hnd. unfold Normalizer.parseEvent.
  destruct (Normalizer.formattedDate env event) as [k|]; [|done].
  set (o' := match JSObject.get k o with Some _ => o | None => _ end).
  assert (NoDup (JSObject.keys o')) as Hnd'.
  { subst o'. destruct (JSObject.get k o); [done|]. by apply set_keys_NoDup. }
  destruct (JSString.match_range _) as [[g1 g2]|]; [|done].
  destruct (JSObject.get k o'); [|done]. by apply set_keys_NoDup.
Qed.

Lemma forEach_NoDup events o log :
  NoDup (JSObject.keys o) ->
  NoDup (JSObject.keys (Normalizer.forEach env events (o, log)).1).
Proof.
  revert o log. induction events as [|event events IH]; intros o log Hnd;
    simpl; [done|].
  pose proof (parseEvent_NoDup event o Hnd) as H.
  destruct (Normalizer.parseEvent env event o) as [[e|] o']; by apply IH.
Qed.

(** Step 5 spelled out: one entry per key, in the order of the sorted
    keys. *)
Lemma sortedEventsByDate_fold o (ks : list string) (acc : EventsByDate) :
  NoDup ks ->
  (forall k, k ∈ ks -> k ∈ JSObject.keys o) ->
  (forall k, k ∈ ks -> k ∉ JSObject.keys acc) ->
  fold_left
    (fun sorted date =>
       match JSObject.get date o with
       | Some evs =>
           JSObject.set date
             (JSArray.sort Normalizer.localeCompare_le evs) sorted
       | None => sorted
       end) ks acc
  = acc ++ map (fun k =>
                  (k, JSArray.sort Normalizer.localeCompare_le
                        (default [] (JSObject.get k o)))) ks.
Proof.
  revert acc. induction ks as [|k ks IH]; intros acc Hnd Hin Hout; simpl.
  - by rewrite app_nil_r.
  - apply NoDup_cons in Hnd as [Hk Hnd].
    destruct (JSObject.get k o) as [evs|] eqn:Hget.
    + rewrite IH; [|done|..].
      * rewrite set_new by (apply Hout; left). by rewrite <- app_assoc.
      * intros k' Hk'. apply Hin. by right.
      * intros k' Hk'. rewrite set_keys_elem. intros [->|H]; [done|].
        revert H. apply Hout. by right.
    + apply get_None in Hget. destruct Hget. apply Hin. left.
Qed.

Lemma sortedEventsByDate_eq o :
  NoDup (JSObject.keys o) ->
  Normalizer.sortedEventsByDate o
  = map (fun k =>
           (k, JSArray.sort Normalizer.localeCompare_le
                 (default [] (JSObject.get k o))))
        (JSArray.sort String.leb (JSObject.keys o)).
Proof.
  intros Hnd. unfold Normalizer.sortedEventsByDate.
  rewrite sortedEventsByDate_fold; [done|..].
  - by rewrite sort_Permutation.
  - intros k. by rewrite sort_Permutation.
  - intros k _. apply not_elem_of_nil.
Qed.

Lemma sortedEventsByDate_keys o :
  NoDup (JSObject.keys o) ->
  JSObject.keys (Normalizer.sortedEventsByDate o)
  = JSArray.sort String.leb (JSObject.keys o).
Proof.
  intros Hnd. rewrite sortedEventsByDate_eq by done.
  unfold JSObject.keys at 1. rewrite <- list_fmap_compose.
  apply list_fmap_id.
Qed.

Lemma StronglySorted_str_lt (l : list string) :
  StronglySorted str_le l -> NoDup l -> StronglySorted str_lt l.
Proof.
  induction 1 as [|x l Hl IH Hx]; intros Hnd; [constructor|].
  apply NoDup_cons in Hnd as [Hx' Hnd]. constructor; [auto|].
  apply Forall_forall. intros y Hy. apply str_lt_iff. split.
  - by apply (proj1 (Forall_forall _ _) Hx).
  - intros ->. done.
Qed.

(** The date keys of step 5 ascend strictly. *)
Lemma sortedEventsByDate_keys_sorted o :
  NoDup (JSObject.keys o) ->
  StronglySorted str_lt (JSObject.keys (Normalizer.sortedEventsByDate o)).
Proof.
  intros Hnd. rewrite sortedEventsByDate_keys by done.
  apply StronglySorted_str_lt.
  - apply Sorted_StronglySorted; [apply _|].
    apply (sort_Sorted String.leb), String.leb_total.
  - by rewrite sort_Permutation.
Qed.

(** Each list of step 5 ascends by [startTime]. *)
Lemma sortedEventsByDate_lists_sorted o :
  NoDup (JSObject.keys o) ->
  Forall (fun kv => StronglySorted ev_le kv.2)
    (Normalizer.sortedEventsByDate o).
Proof.
  intros Hnd. rewrite sortedEventsByDate_eq by done.
  apply Forall_forall. intros [k evs] [k' [[= -> ->] _]]%list_elem_of_fmap.
  simpl. apply Sorted_StronglySorted; [apply _|].
  apply (sort_Sorted Normalizer.localeCompare_le), localeCompare_le_total.
Qed.

End NormalizerFacts.

(** ** Runs of the route *)

Section RunFacts.

Lemma GET_unfold env : Route.GET env = Route.chunks (Route.start env).2.
Proof. done. Qed.

(** A smooth run sends the six progress records and the normalised
    events. *)
Lemma smooth_terminal env events :
  smooth env events ->
  terminal env
  = Some (Final true (Some (normalize env events))
            (Some "Puppeteer Browser Automation") None)
  /\ (Route.start env).1 = inr tt.
Proof.
  intros (Hi & Hl & Hp & He & Hc). unfold terminal, normalize.
  rewrite GET_unfold.
  destruct env as [dp dn imp la lp ev cd cc]; simpl in *; subst.
  remember (Route.start _) as r eqn:Hr. run_in Hr. by subst r.
Qed.

End RunFacts.

(** ** The response stream *)

(** C7. Every run sends exactly one final record: it is the last chunk,
    all chunks before it are progress records, [start] returns without
    throwing, and the stream is closed when it returns.  The record carries
    [success] and the optional [events], [successfulMethod] and [error]:
    with [success] there are events and no error, without it there is an
    error and no method name. *)
Theorem C7_one_final_record_ends_the_stream env :
  exists ps success events successfulMethod error,
    Route.GET env = ps ++ [Final success events successfulMethod error]
    /\ Forall is_progress ps
    /\ (Route.start env).1 = inr tt
    /\ Route.closed (Route.start env).2 = true
    /\ (if success then is_Some events /\ error = None
        else is_Some error /\ successfulMethod = None).
Proof.
  rewrite GET_unfold. run env.
  all: match goal with
       | |- exists ps : list Chunk, exists _ _ _ _, ?l = _ /\ _ =>
           exists (removelast l)
       end.
  all: eexists _, _, _, _; split; [reflexivity|].
  all: split_and!; [by repeat constructor|done|done|by eexists|done].
Qed.

(** C8, as amended. In every progress record at most one step is running:
    the first record, with progress 10, shows step 1 running, and every
    later record shows no running step, because each later step is set
    running only after the record that follows its predecessor is sent. *)
Theorem C8_running_steps_in_progress_records env progress ms :
  Progress progress ms ∈ Route.GET env ->
  running_count ms = (if (progress =? 10)%Z then 1 else 0)
  /\ running_count ms <= 1.
Proof.
  rewrite GET_unfold. run env.
  all: intros H; repeat (apply elem_of_cons in H as [[= -> ->]|H]).
  all: try (by apply elem_of_nil in H).
  all: vm_compute; split; [reflexivity|lia].
Qed.

(** ** The step list *)

(** C5. When the host call of step [N] fails, the step list of the last
    progress record has the steps before [N] successful, step [N] failed
    with an error text, and the steps after [N] pending. *)
Theorem C5_step_list_after_failure env N :
  failing_step env = Some N ->
  1 <= N <= 5 /\
  exists ms, last_broadcast env = Some ms /\ failed_at N ms.
Proof.
  unfold last_broadcast. rewrite GET_unfold. run env.
  all: unfold failing_step; simpl; intros [= <-].
  all: split; [lia|]. 
  all: eexists; split; [reflexivity|].
  all: split; [reflexivity|].
  all: intros [|[|[|[|[|i]]]]] m [= <-]; simpl.
  all: split_and!; first [lia | done | intros _; split; [done|by eexists] ].
Qed.

(** The step that [failing_step] names is the one the route has marked
    running when the [try] is left by a throw. *)
Lemma failing_step_running env N :
  failing_step env = Some N <->
  1 <= N /\ exists e m,
    (Route.tried env).1 = inl e
    /\ list_find (fun m => ScrapingMethod.status m = running)
         (Route.methods (Route.tried env).2) = Some (pred N, m).
Proof.
  run env.
  all: unfold failing_step; simpl.
  all: split.
  all: try (intros [= <-]; (split; [lia|eexists _, _; split; reflexivity])).
  all: intros (HN & e' & m & He & Hm); try discriminate He.
  all: destruct N as [|n]; [lia|]; cbn [pred] in Hm.
  all: vm_compute in Hm; try discriminate Hm.
  all: injection Hm as Hm _; by subst n.
Qed.

(** ** The fallback *)

Lemma sampleEvents_size :
  length (JSObject.keys Route.sampleEvents) = 2
  /\ length (concat (JSObject.values Route.sampleEvents)) = 3.
Proof. done. Qed.

(** C6, as amended. When the import of the renderer fails, the terminal
    record is the fallback record: no success, the sample events of two
    dates and three events, no method name, an error text that speaks of
    unavailability.  The fallback record is sent exactly when the value the
    [try] threw is an [Error] whose message contains "Puppeteer not
    available", whichever call threw it. *)
Theorem C6_fallback_by_message env :
  (import_puppeteer env = false -> fallback_terminal env)
  /\ (fallback_terminal env <->
      exists e, (Route.tried env).1 = inl e /\ Route.not_available e = true).
Proof.
  unfold fallback_terminal, terminal. rewrite GET_unfold. run env.
  all: split;
    [ first [ by intros [=]
            | intros _; eexists; split; [reflexivity|by vm_compute] ]
    | split ].
  all: first
    [ by intros (error & [=] & _)
    | by intros (e' & [= <-] & He'); simpl in He'; congruence
    | by intros (e' & [=] & _)
    | intros _; eexists; split; [reflexivity|]; first [done|by vm_compute] ].
Qed.

(** *** Concrete runs *)

(** C8, counterexample. On a run where everything goes well, the record
    with progress 25 shows step 1 successful and the other steps pending:
    no step is running, so it is not the case that every progress record
    shows exactly one running step. *)
Lemma C8_counterexample :
  ~ (forall progress ms,
       Progress progress ms ∈ Route.GET (smooth_env 0 []) ->
       running_count ms = 1).
Proof.
  intros H.
  assert (exists ms, Route.GET (smooth_env 0 []) !! 1 = Some (Progress 25 ms)
                     /\ running_count ms = 0) as (ms & Hms & Hcount).
  { eexists. split; [by vm_compute|by vm_compute]. }
  apply list_elem_of_lookup_2, H in Hms. congruence.
Qed.

Lemma C8_witness :
  running_count first_broadcast = 1 /\ running_count first_broadcast <= 1.
Proof.
  apply (C8_running_steps_in_progress_records (smooth_env 0 []) 10).
  apply (list_elem_of_lookup_2 _ 0). reflexivity.
Defined.

Lemma C5_witness :
  1 <= 3 <= 5 /\
  exists ms, last_broadcast no_box_env = Some ms /\ failed_at 3 ms.
Proof. apply (C5_step_list_after_failure no_box_env 3). reflexivity. Defined.

(** C6, counterexample. The launch fails, not the import, with a message
    that contains "Puppeteer not available": the run ends with the
    fallback record all the same. *)
Lemma C6_counterexample :
  ~ (fallback_terminal launch_message_env
     <-> import_puppeteer launch_message_env = false).
Proof.
  intros [H _]. enough (true = false) by done. apply H.
  eexists. split; [by vm_compute|by vm_compute].
Qed.

Lemma C6_witness :
  fallback_terminal (Build_Env (JSDate.V8_parse 0) (fun n => Z.of_nat n)
                       false None None (inr (Extracted [])) None None).
Proof.
  apply (proj1 (C6_fallback_by_message _)). reflexivity.
Defined.

(** ** The terminal events *)

Lemma sampleEvents_sorted :
  StronglySorted str_lt (JSObject.keys Route.sampleEvents)
  /\ Forall (fun kv => StronglySorted ev_le kv.2) Route.sampleEvents.
Proof. split; repeat constructor. Qed.

(** C4. Whenever the terminal record carries [events], their date keys
    are in strictly ascending order of code units, in the order of
    serialisation, and the list of every date ascends by [startTime] in
    that same order of strings. *)
Theorem C4_terminal_events_sorted env success events successfulMethod error :
  terminal env = Some (Final success (Some events) successfulMethod error) ->
  StronglySorted str_lt (JSObject.keys events)
  /\ Forall (fun kv => StronglySorted ev_le kv.2) events.
Proof.
  unfold terminal. rewrite GET_unfold. run env.
  all: intros [= <- <- <- <-].
  all: try apply sampleEvents_sorted.
  split.
  - apply sortedEventsByDate_keys_sorted, forEach_NoDup, NoDup_nil_2.
  - apply sortedEventsByDate_lists_sorted, forEach_NoDup, NoDup_nil_2.
Qed.

(** ** Time stamps *)
Section Stamps.
Import JSString.

Lemma match_here_shaped p s m rest :
  match_here p s = Some (m, rest) -> shaped p m.
Proof.
  revert s m. induction p as [|t p IH]; intros s m; simpl.
  - by intros [= <- _].
  - destruct s as [|c s]; [done|]. destruct (tok_ok t c) eqn:Hc; [|done].
    destruct (match_here p s) as [[m' r]|] eqn:Hm; [|done].
    intros [= <- <-]. simpl. split; [done|by eapply IH].
Qed.

Lemma range_here_shaped s g1 g2 :
  range_here s = Some (g1, g2) -> shaped stamp g1 /\ shaped stamp g2.
Proof.
  unfold range_here.
  destruct (match_here stamp s) as [[m1 r1]|] eqn:H1; [|done].
  destruct (match_here dash r1) as [[m2 r2]|]; [|done].
  destruct (match_here stamp r2) as [[m3 r3]|] eqn:H3; [|done].
  intros [= <- <-]. eauto using match_here_shaped.
Qed.

(** The groups of a matched time range are two time stamps. *)
Lemma match_range_shaped s g1 g2 :
  match_range s = Some (g1, g2) -> shaped stamp g1 /\ shaped stamp g2.
Proof.
  induction s as [|c s IH]; cbn [match_range].
  - destruct (range_here "") as [g|] eqn:H; [|done].
    intros [= ->]. by apply range_here_shaped in H.
  - destruct (range_here (String c s)) as [g|] eqn:H; [|done].
    intros [= ->]. by apply range_here_shaped in H.
Qed.

Lemma digit_neq c l :
  is_digit c = true -> is_digit l = false -> Ascii.eqb c l = false.
Proof. intros Hc Hl. apply Ascii.eqb_neq. congruence. Qed.

Ltac expose H :=
  repeat match type of H with
    | shaped (_ :: _) ?g =>
        destruct g as [|? g]; [destruct H|];
        cbn [shaped] in H;
        let Hc := fresh "Hc" in
        destruct H as [Hc H]; cbn [tok_ok] in Hc;
        try (apply Ascii.eqb_eq in Hc; subst)
    | shaped [] ?g => destruct g; [clear H|destruct H]
    end.

(** [isoTime] on a time stamp: the two slashes become dashes, the space
    becomes [T], the digits stay. *)
Lemma isoTime_shaped g :
  shaped stamp g -> shaped
    [D; D; D; D; L "-"; D; D; L "-"; D; D; L "T"; D; D; L ":"; D; D; L ":"; D; D]
    (Normalizer.isoTime g).
Proof.
  intros H. unfold stamp in H. expose H.
  unfold Normalizer.isoTime. cbn [replaceAll].
  repeat match goal with
         | Hc : is_digit ?c = true |- context [Ascii.eqb ?c ?l] =>
             rewrite (digit_neq c l Hc) by reflexivity
         end.
  cbn. 
  repeat match goal with
         | Hc : is_digit ?c = true |- context [Ascii.eqb ?c ?l] =>
             rewrite (digit_neq c l Hc) by reflexivity
         end.
  cbn. repeat split; assumption.
Qed.

Lemma compare_cons_congr a b s t s' t' :
  String.compare s t = String.compare s' t' ->
  String.compare (String a s) (String b t)
  = String.compare (String a s') (String b t').
Proof. intros H. simpl. by rewrite H. Qed.

Lemma compare_cons_same a s t :
  String.compare (String a s) (String a t) = String.compare s t.
Proof. simpl. by rewrite ascii_compare_refl. Qed.

(** [isoTime] keeps the order of two time stamps. *)
Lemma isoTime_compare g1 g2 :
  shaped stamp g1 -> shaped stamp g2 ->
  String.compare (Normalizer.isoTime g1) (Normalizer.isoTime g2)
  = String.compare g1 g2.
Proof.
  intros H1 H2. unfold stamp in H1, H2. expose H1. expose H2.
  unfold Normalizer.isoTime. cbn [replaceAll].
  repeat match goal with
         | Hc : is_digit ?c = true |- context [Ascii.eqb ?c ?l] =>
             rewrite (digit_neq c l Hc) by reflexivity
         end.
  cbn [replaceFirst].
  repeat match goal with
         | Hc : is_digit ?c = true |- context [Ascii.eqb ?c ?l] =>
             rewrite (digit_neq c l Hc) by reflexivity
         end.
  change (Ascii.eqb "/" "/") with true. cbn [replaceFirst].
  repeat match goal with
         | Hc : is_digit ?c = true |- context [Ascii.eqb ?c ?l] =>
             rewrite (digit_neq c l Hc) by reflexivity
         end.
  change (Ascii.eqb "-" " ") with false. change (Ascii.eqb " " "/") with false.
  change (Ascii.eqb " " " ") with true. cbv iota.
  repeat first [ rewrite !compare_cons_same
               | apply compare_cons_congr
               | reflexivity ].
Qed.

Lemma isoTime_le g1 g2 :
  shaped stamp g1 -> shaped stamp g2 ->
  str_le (Normalizer.isoTime g1) (Normalizer.isoTime g2) <-> str_le g1 g2.
Proof.
  intros H1 H2. unfold str_le, String.leb. by rewrite isoTime_compare.
Qed.

End Stamps.

(** ** What the normaliser keeps *)

Section Kept.
Variable env : Env.
Implicit Types (o : EventsByDate) (g : RawEvent.t) (key : string).

Lemma forEach_app l1 l2 acc :
  Normalizer.forEach env (l1 ++ l2) acc
  = Normalizer.forEach env l2 (Normalizer.forEach env l1 acc).
Proof.
  revert acc. induction l1 as [|g l1 IH]; intros [o log]; simpl; [done|].
  destruct (Normalizer.parseEvent env g o) as [[e|] o']; apply IH.
Qed.

Lemma forEach_log events o log log' :
  (Normalizer.forEach env events (o, log)).1
  = (Normalizer.forEach env events (o, log')).1.
Proof.
  revert o log log'. induction events as [|g events IH]; intros o log log';
    simpl; [done|].
  destruct (Normalizer.parseEvent env g o) as [[e|] o']; apply IH.
Qed.

(** A fragment whose date text gives no date leaves the object as it
    was. *)
Lemma parseEvent_invalid g o :
  Date_parse env (RawEvent.date g) = None ->
  exists e, Normalizer.parseEvent env g o = (Some e, o).
Proof.
  intros H. unfold Normalizer.parseEvent, Normalizer.formattedDate.
  rewrite H. simpl. eauto.
Qed.

Lemma parseEvent_get g o key :
  JSObject.get key (Normalizer.parseEvent env g o).2
  = if decide (Normalizer.formattedDate env g = Some key)
    then Some (default [] (JSObject.get key o) ++ contribution env key g)
    else JSObject.get key o.
Proof.
  unfold Normalizer.parseEvent, contribution.
  destruct (Normalizer.formattedDate env g) as [k|];
    [|by (simpl; try case_decide)].
  set (o' := match JSObject.get k o with Some _ => o | None => _ end).
  assert (JSObject.get k o' = Some (default [] (JSObject.get k o))) as Hk.
  { subst o'. destruct (JSObject.get k o) eqn:E; [done|].
    apply get_set_eq. }
  assert (forall k', k <> k' -> JSObject.get k' o' = JSObject.get k' o) as Hne.
  { intros k' Hk'. subst o'. destruct (JSObject.get k o); [done|].
    by apply get_set_ne. }
  rewrite Hk. case_decide as Hd.
  - injection Hd as ->.
    destruct (JSString.match_range _) as [[g1 g2]|]; simpl.
    + by rewrite get_set_eq.
    + by rewrite Hk, app_nil_r.
  - assert (k <> key) as Hkey by congruence.
    destruct (JSString.match_range _) as [[g1 g2]|]; simpl.
    + rewrite get_set_ne by done. by apply Hne.
    + by apply Hne.
Qed.

(** The bucket of [key] after step 4: the contributions of the
    fragments in their order, after what the bucket held before. *)
Lemma forEach_get events o log key :
  JSObject.get key (Normalizer.forEach env events (o, log)).1
  = match JSObject.get key o with
    | Some bucket =>
        Some (bucket ++ concat (map (contribution env key) events))
    | None =>
        if dated env key events
        then Some (concat (map (contribution env key) events))
        else None
    end.
Proof.
  revert o log. induction events as [|g events IH]; intros o log.
  - simpl. destruct (JSObject.get key o); [|done]. by rewrite app_nil_r.
  - cbn [Normalizer.forEach].
    pose proof (parseEvent_get g o key) as Hget.
    assert (Normalizer.formattedDate env g <> Some key ->
            contribution env key g = []) as Hc.
    { intros Hne. unfold contribution. by rewrite decide_False. }
    destruct (Normalizer.parseEvent env g o) as [[e|] o']; simpl in Hget;
      rewrite IH, Hget; unfold dated; cbn [existsb map concat];
      (case_decide as Hd;
       [ rewrite bool_decide_eq_true_2 by done
       | rewrite bool_decide_eq_false_2, Hc by done ]);
      destruct (JSObject.get key o); simpl; by rewrite <- ?app_assoc.
Qed.

Lemma get_tabulated {V} (F : string -> V) (ks : list string) key :
  JSObject.get key (map (fun k => (k, F k)) ks)
  = if decide (key ∈ ks) then Some (F key) else None.
Proof.
  induction ks as [|k ks IH]; cbn [map JSObject.get].
  - rewrite decide_False; [done|apply not_elem_of_nil].
  - destruct (String.eqb_spec k key) as [->|Hne].
    + rewrite decide_True; [done|left].
    + rewrite IH. destruct (decide (key ∈ ks)) as [Hin|Hin].
      * rewrite decide_True; [done|by right].
      * rewrite decide_False; [done|].
        by intros [->|?]%elem_of_cons.
Qed.

(** The bucket of [key] in the events a smooth run sends. *)
Lemma normalize_get events key :
  JSObject.get key (normalize env events)
  = if dated env key events
    then Some (JSArray.sort Normalizer.localeCompare_le
                 (concat (map (contribution env key) events)))
    else None.
Proof.
  unfold normalize.
  rewrite sortedEventsByDate_eq by apply forEach_NoDup, NoDup_nil_2.
  rewrite get_tabulated.
  pose proof (forEach_get events [] [] key) as Hget.
  cbn [JSObject.get] in Hget.
  destruct (dated env key events) eqn:Hd.
  - rewrite decide_True.
    { apply (f_equal (fun x =>
        Some (JSArray.sort Normalizer.localeCompare_le (default [] x))))
        in Hget. exact Hget. }
    rewrite sort_Permutation. apply dec_stable. intros Hn.
    apply get_None in Hn. by pose proof (eq_trans (eq_sym Hget) Hn).
  - rewrite decide_False; [done|].
    rewrite sort_Permutation. apply get_None. exact Hget.
Qed.

End Kept.

(** ** Claims about the normaliser *)

Lemma normalize_NoDup env events : NoDup (JSObject.keys (normalize env events)).
Proof.
  unfold normalize.
  rewrite sortedEventsByDate_keys by apply forEach_NoDup, NoDup_nil_2.
  rewrite sort_Permutation. apply forEach_NoDup, NoDup_nil_2.
Qed.

(** Every event of the normalised output is the event of one of the
    fragments, whose time text matched. *)
Lemma normalize_elem env events key evs e :
  (key, evs) ∈ normalize env events -> e ∈ evs ->
  exists g g1 g2,
    g ∈ events
    /\ Normalizer.formattedDate env g = Some key
    /\ JSString.match_range (RawEvent.timeText g) = Some (g1, g2)
    /\ e = Normalizer.monopolyEvent g g1 g2.
Proof.
  intros Hin He.
  apply elem_get_Some in Hin; [|apply normalize_NoDup].
  rewrite normalize_get in Hin.
  destruct (dated env key events); [|done]. injection Hin as <-.
  rewrite sort_Permutation in He.
  apply list_elem_of_In, in_concat in He as (l & Hl & He).
  apply in_map_iff in Hl as (g & <- & Hg).
  unfold contribution in He. case_decide as Hd; [|done].
  destruct (JSString.match_range _) as [[g1 g2]|] eqn:Hm; [|done].
  destruct He as [<-|[]]. exists g, g1, g2.
  by rewrite <- list_elem_of_In in Hg.
Qed.

(** C2, counterexample. A fragment whose time text names the later
    instant first passes the normaliser, and its event starts after it
    ends. *)
Lemma C2_counterexample :
  ~ (forall env events key evs e,
       (key, evs) ∈ normalize env events -> e ∈ evs ->
       str_le (MonopolyEvent.startTime e) (MonopolyEvent.endTime e)).
Proof.
  intros H.
  specialize (H (smooth_env 0 []) [backwards_fragment] "2025-05-29"
                [Normalizer.monopolyEvent backwards_fragment
                   "2025/05/30 01:00:00" "2025/05/29 06:59:00"]
                (Normalizer.monopolyEvent backwards_fragment
                   "2025/05/30 01:00:00" "2025/05/29 06:59:00")).
  enough (false = true) by done. apply H.
  - apply (list_elem_of_lookup_2 _ 0). reflexivity.
  - left.
Qed.

(** C2, as amended. The event of an accepted fragment starts and ends at
    the two time stamps of the fragment's time text, in the order of the
    text and in ISO form; [startTime <= endTime] holds for it exactly when
    the first time stamp of the text is not after the second.  The
    normaliser compares neither. *)
Theorem C2_times_in_text_order env events key evs e :
  (key, evs) ∈ normalize env events -> e ∈ evs ->
  exists g g1 g2,
    g ∈ events
    /\ JSString.match_range (RawEvent.timeText g) = Some (g1, g2)
    /\ MonopolyEvent.startTime e = Normalizer.isoTime g1
    /\ MonopolyEvent.endTime e = Normalizer.isoTime g2
    /\ (str_le (MonopolyEvent.startTime e) (MonopolyEvent.endTime e)
        <-> str_le g1 g2).
Proof.
  intros Hin He.
  destruct (normalize_elem _ _ _ _ _ Hin He) as (g & g1 & g2 & Hg & _ & Hm & ->).
  exists g, g1, g2. split_and!; [done..|].
  destruct (match_range_shaped _ _ _ Hm). by apply isoTime_le.
Qed.

Lemma C2_witness :
  exists g g1 g2,
    g ∈ [fragment_A]
    /\ JSString.match_range (RawEvent.timeText g) = Some (g1, g2)
    /\ MonopolyEvent.startTime event_A = Normalizer.isoTime g1
    /\ MonopolyEvent.endTime event_A = Normalizer.isoTime g2
    /\ (str_le (MonopolyEvent.startTime event_A) (MonopolyEvent.endTime event_A)
        <-> str_le g1 g2).
Proof.
  apply (C2_times_in_text_order (smooth_env 0 []) [fragment_A] "2025-05-29"
           [event_A] event_A).
  - apply (list_elem_of_lookup_2 _ 0). reflexivity.
  - left.
Defined.

(** C9. A fragment whose date text gives no date adds no event under any
    key; the normalised output is what it is without the fragment; and a
    run on which all else goes well ends with [success: true], no error,
    and the events of the remaining fragments. *)
Theorem C9_undated_fragment_dropped env before f after :
  Date_parse env (RawEvent.date f) = None ->
  (forall key, contribution env key f = [])
  /\ normalize env (before ++ f :: after) = normalize env (before ++ after)
  /\ (smooth env (before ++ f :: after) ->
      terminal env
      = Some (Final true (Some (normalize env (before ++ after)))
                (Some "Puppeteer Browser Automation") None)
      /\ (Route.start env).1 = inr tt).
Proof.
  intros Hf.
  assert (normalize env (before ++ f :: after) = normalize env (before ++ after))
    as Heq.
  { unfold normalize. f_equal.
    rewrite !forEach_app. cbn [Normalizer.forEach].
    destruct (Normalizer.forEach env before ([], [])) as [o log].
    destruct (parseEvent_invalid env f o Hf) as [e ->].
    apply forEach_log. }
  split_and!; [|done|].
  - intros key. unfold contribution, Normalizer.formattedDate.
    rewrite Hf. cbn [JSDate.toISOString]. by rewrite decide_False.
  - intros Hs. rewrite <- Heq. by apply smooth_terminal.
Qed.

Lemma C9_witness :
  normalize (smooth_env 0 [fragment_A; undated_fragment])
    [fragment_A; undated_fragment]
  = normalize (smooth_env 0 [fragment_A; undated_fragment]) [fragment_A]
  /\ terminal (smooth_env 0 [fragment_A; undated_fragment])
     = Some (Final true (Some [("2025-05-29", [event_A])])
               (Some "Puppeteer Browser Automation") None).
Proof.
  destruct (C9_undated_fragment_dropped
              (smooth_env 0 [fragment_A; undated_fragment])
              [fragment_A] undated_fragment [] eq_refl) as (_ & H1 & H2).
  split; [exact H1|]. apply H2. by repeat split.
Defined.

Lemma contributions_nil env key events :
  (forall g, g ∈ events -> Normalizer.formattedDate env g = Some key ->
             JSString.match_range (RawEvent.timeText g) = None) ->
  concat (map (contribution env key) events) = [].
Proof.
  induction events as [|g events IH]; intros Hall; cbn [map concat]; [done|].
  rewrite IH by (intros; apply Hall; [by right|done]).
  rewrite app_nil_r. unfold contribution. case_decide as Hd; [|done].
  rewrite (Hall g); [done|left|done].
Qed.

(** C10. On a run on which all goes well, a fragment whose date text
    gives the key [key] and whose time text does not match leaves [key] in
    the events of the terminal record; when no fragment of that key has a
    matching time text, the key is there with an empty list. *)
Theorem C10_bucket_without_events env events f key :
  smooth env events ->
  f ∈ events ->
  Normalizer.formattedDate env f = Some key ->
  JSString.match_range (RawEvent.timeText f) = None ->
  exists out evs,
    terminal env
    = Some (Final true (Some out) (Some "Puppeteer Browser Automation") None)
    /\ key ∈ JSObject.keys out
    /\ JSObject.get key out = Some evs
    /\ ((forall g, g ∈ events -> Normalizer.formattedDate env g = Some key ->
                   JSString.match_range (RawEvent.timeText g) = None) ->
        evs = []).
Proof.
  intros Hs Hf Hkey Hm.
  exists (normalize env events),
    (JSArray.sort Normalizer.localeCompare_le
       (concat (map (contribution env key) events))).
  assert (JSObject.get key (normalize env events)
          = Some (JSArray.sort Normalizer.localeCompare_le
                    (concat (map (contribution env key) events)))) as Hget.
  { rewrite normalize_get.
    replace (dated env key events) with true; [done|].
    symmetry. apply existsb_exists. exists f.
    split; [by apply list_elem_of_In|by apply bool_decide_eq_true_2]. }
  split_and!; [by apply smooth_terminal| |done|].
  - apply dec_stable. intros Hn. apply get_None in Hn.
    by pose proof (eq_trans (eq_sym Hget) Hn).
  - intros Hall. by rewrite contributions_nil.
Qed.

Lemma C10_witness :
  exists out evs,
    terminal (smooth_env 0 [untimed_fragment])
    = Some (Final true (Some out) (Some "Puppeteer Browser Automation") None)
    /\ "2025-05-29" ∈ JSObject.keys out
    /\ JSObject.get "2025-05-29" out = Some evs
    /\ ((forall g, g ∈ [untimed_fragment] ->
           Normalizer.formattedDate (smooth_env 0 [untimed_fragment]) g
           = Some "2025-05-29" ->
           JSString.match_range (RawEvent.timeText g) = None) ->
        evs = []).
Proof.
  apply (C10_bucket_without_events (smooth_env 0 [untimed_fragment])
           [untimed_fragment] untimed_fragment "2025-05-29").
  - by repeat split.
  - left.
  - reflexivity.
  - reflexivity.
Defined.

(** The run of the witness ends with an empty list under its date. *)
Lemma untimed_fragment_terminal :
  terminal (smooth_env 0 [untimed_fragment])
  = Some (Final true (Some [("2025-05-29", [])])
            (Some "Puppeteer Browser Automation") None).
Proof. reflexivity. Qed.

(** ** The date key and the host's time zone *)
Section DateKey.
Local Open Scope Z_scope.

(** The header date 2025/05/29 on a host [tz] minutes from UTC: V8 reads
    it as local midnight, and [toISOString] prints that instant in UTC.
    East of UTC local midnight falls on the day before. *)
Lemma formattedDate_2025_05_29 env tz (g : RawEvent.t) :
  Date_parse env = JSDate.V8_parse tz ->
  -1440 < tz <= 1440 ->
  RawEvent.date g = "2025/05/29"%string ->
  Normalizer.formattedDate env g
  = Some (if 0 <? tz then "2025-05-28"%string else "2025-05-29"%string).
Proof.
  intros Henv Htz Hg. unfold Normalizer.formattedDate.
  rewrite Henv, Hg.
  change (JSDate.V8_parse tz "2025/05/29")
    with (JSDate.TimeClip (20237 * JSDate.msPerDay - tz * JSDate.msPerMinute)).
  unfold JSDate.TimeClip, JSDate.msPerDay, JSDate.msPerMinute.
  destruct (Z.leb_spec (Z.abs (20237 * 86400000 - tz * 60000))
              8640000000000000); [|lia].
  unfold JSDate.toISOString. destruct (Z.ltb_spec 0 tz).
  - replace ((20237 * 86400000 - tz * 60000) / JSDate.msPerDay) with 20236;
      [reflexivity|].
    apply (Z.div_unique _ _ _ (86400000 - tz * 60000));
      unfold JSDate.msPerDay; lia.
  - replace ((20237 * 86400000 - tz * 60000) / JSDate.msPerDay) with 20237;
      [reflexivity|].
    apply (Z.div_unique _ _ _ (- tz * 60000)); unfold JSDate.msPerDay; lia.
Qed.

Lemma scenario_A_terminal env tz :
  Date_parse env = JSDate.V8_parse tz ->
  -1440 < tz <= 1440 ->
  smooth env [fragment_A] ->
  terminal env
  = Some (Final true
            (Some [(if 0 <? tz then "2025-05-28"%string
                    else "2025-05-29"%string, [event_A])])
            (Some "Puppeteer Browser Automation"%string) None).
Proof.
  intros Henv Htz Hs.
  rewrite (proj1 (smooth_terminal env _ Hs)). do 2 f_equal.
  unfold normalize. cbn [Normalizer.forEach]. unfold Normalizer.parseEvent.
  rewrite (formattedDate_2025_05_29 env tz) by done.
  by destruct (0 <? tz).
Qed.

(** On a host at UTC or west of it, scenario A ends as the
    specification says. *)
Lemma scenario_A_west_of_UTC env tz :
  Date_parse env = JSDate.V8_parse tz ->
  -1440 < tz <= 0 ->
  smooth env [fragment_A] ->
  terminal env
  = Some (Final true (Some [("2025-05-29"%string, [event_A])])
            (Some "Puppeteer Browser Automation"%string) None).
Proof.
  intros Henv Htz Hs. rewrite (scenario_A_terminal env tz) by (done || lia).
  by replace (0 <? tz) with false by (symmetry; apply Z.ltb_ge; lia).
Qed.

(** C1, the code at the failing input. Scenario A on a host east of
    UTC: the run succeeds and sends the expected event, but under the
    date key of the day before, 2025-05-28. *)
Theorem C1_scenario_A_east_of_UTC env tz :
  Date_parse env = JSDate.V8_parse tz ->
  0 < tz <= 1440 ->
  smooth env [fragment_A] ->
  terminal env
  = Some (Final true (Some [("2025-05-28"%string, [event_A])])
            (Some "Puppeteer Browser Automation"%string) None).
Proof.
  intros Henv Htz Hs. rewrite (scenario_A_terminal env tz) by (done || lia).
  by replace (0 <? tz) with true by (symmetry; apply Z.ltb_lt; lia).
Qed.

(** C3, the code at the failing input. On a host east of UTC the date
    key of a fragment under the header 2025/05/29 is 2025-05-28: the key
    goes through the host's time zone, whatever the fragment's own
    times are. *)
Theorem C3_date_key_east_of_UTC env tz (g : RawEvent.t) :
  Date_parse env = JSDate.V8_parse tz ->
  0 < tz <= 1440 ->
  RawEvent.date g = "2025/05/29"%string ->
  Normalizer.formattedDate env g = Some "2025-05-28"%string.
Proof.
  intros Henv Htz Hg.
  rewrite (formattedDate_2025_05_29 env tz) by (done || lia).
  by replace (0 <? tz) with true by (symmetry; apply Z.ltb_lt; lia).
Qed.

Lemma C1_witness :
  terminal (smooth_env 60 [fragment_A])
  = Some (Final true (Some [("2025-05-28"%string, [event_A])])
            (Some "Puppeteer Browser Automation"%string) None).
Proof.
  apply (C1_scenario_A_east_of_UTC (smooth_env 60 [fragment_A]) 60).
  - reflexivity.
  - lia.
  - by repeat split.
Defined.

Lemma C3_witness :
  Normalizer.formattedDate (smooth_env 300 [fragment_A]) fragment_A
  = Some "2025-05-28"%string.
Proof.
  apply (C3_date_key_east_of_UTC (smooth_env 300 [fragment_A]) 300).
  - reflexivity.
  - lia.
  - reflexivity.
Defined.

End DateKey.

Lemma C4_witness :
  StronglySorted str_lt (JSObject.keys shuffled_events)
  /\ Forall (fun kv => StronglySorted ev_le kv.2) shuffled_events.
Proof.
  apply (C4_terminal_events_sorted (smooth_env 0 shuffled_fragments) true
           shuffled_events (Some "Puppeteer Browser Automation") None).
  reflexivity.
Defined.

(** * More of the route *)

(** Steps 4 and 5 on the shuffled fragments. *)
Example shuffled_normalized :
  normalize (smooth_env 0 []) shuffled_fragments = shuffled_events.
Proof. reflexivity. Qed.

(** ** Counting events and keys *)
Section Counting.
Variable env : Env.
Implicit Types (o : EventsByDate).

Lemma total_cons k v o : total ((k, v) :: o) = length v + total o.
Proof. unfold total. simpl. by rewrite length_app. Qed.

Lemma total_set_new k o : k ∉ JSObject.keys o -> total (JSObject.set k [] o) = total o.
Proof.
  intros H. rewrite set_new by done. unfold total, JSObject.values.
  rewrite map_app, concat_app, length_app. simpl. lia.
Qed.

Lemma total_set_old k v b o :
  JSObject.get k o = Some b ->
  total (JSObject.set k v o) + length b = total o + length v.
Proof.
  induction o as [|[k' v'] o IH]; simpl; [done|].
  destruct (String.eqb_spec k' k) as [->|Hne].
  - intros [= ->]. rewrite !total_cons. lia.
  - intros H. rewrite !total_cons. specialize (IH H). lia.
Qed.

Lemma parseEvent_total g o :
  total (Normalizer.parseEvent env g o).2
  = total o + (if accepted env g then 1 else 0).
Proof.
  unfold Normalizer.parseEvent, accepted.
  destruct (Normalizer.formattedDate env g) as [k|]; [|simpl; lia].
  set (o' := match JSObject.get k o with Some _ => o | None => _ end).
  assert (total o' = total o) as Ho'.
  { subst o'. destruct (JSObject.get k o) eqn:E; [done|].
    apply total_set_new. by apply get_None. }
  assert (is_Some (JSObject.get k o')) as [b Hb].
  { subst o'. destruct (JSObject.get k o) eqn:E; [by eexists|].
    rewrite get_set_eq. by eexists. }
  destruct (JSString.match_range _) as [[g1 g2]|]; simpl; [|lia].
  rewrite Hb. simpl.
  pose proof (total_set_old k (b ++ [Normalizer.monopolyEvent g g1 g2]) b o' Hb) as H.
  rewrite length_app in H. simpl in H. lia.
Qed.

Lemma forEach_total events o log :
  total (Normalizer.forEach env events (o, log)).1
  = total o + length (filter (fun g => accepted env g) events).
Proof.
  revert o log. induction events as [|g events IH]; intros o log; simpl; [lia|].
  pose proof (parseEvent_total g o) as H.
  rewrite filter_cons.
  destruct (Normalizer.parseEvent env g o) as [[e|] o']; simpl in H;
    rewrite IH, H; destruct (accepted env g); simpl; lia.
Qed.

Lemma total_keys o :
  NoDup (JSObject.keys o) ->
  sum_list_with (fun k => length (default [] (JSObject.get k o))) (JSObject.keys o)
  = total o.
Proof.
  induction o as [|[k v] o IH]; [done|]. simpl JSObject.keys.
  intros [Hk Hnd]%NoDup_cons. rewrite total_cons. simpl.
  rewrite String.eqb_refl. simpl. f_equal. rewrite <- IH by done.
  clear IH. revert Hk. generalize (JSObject.keys o) as ks.
  induction ks as [|k' ks IH']; [done|]. intros [Hne Hk]%not_elem_of_cons.
  simpl. rewrite IH' by done. destruct (String.eqb_spec k k'); [done|done].
Qed.

Lemma sortedEventsByDate_total o :
  NoDup (JSObject.keys o) ->
  total (Normalizer.sortedEventsByDate o) = total o
  /\ length (JSObject.keys (Normalizer.sortedEventsByDate o))
     = length (JSObject.keys o).
Proof.
  intros Hnd. split.
  - rewrite sortedEventsByDate_eq by done.
    rewrite <- (total_keys o) by done.
    rewrite <- (sum_list_with_Permutation_proper _ _ _
                  (sort_Permutation String.leb (JSObject.keys o))).
    generalize (JSArray.sort String.leb (JSObject.keys o)) as ks.
    induction ks as [|k ks IH]; [done|]. simpl. rewrite total_cons, IH.
    by rewrite (sort_Permutation Normalizer.localeCompare_le).
  - rewrite sortedEventsByDate_keys by done. by rewrite sort_Permutation.
Qed.

End Counting.

Section MoreNormalizer.
Variable env : Env.
Implicit Types (o : EventsByDate).

Lemma parseEvent_keys_length g o :
  length (JSObject.keys (Normalizer.parseEvent env g o).2)
  <= S (length (JSObject.keys o)).
Proof.
  assert (forall k (v : list MonopolyEvent.t) o,
            length (JSObject.keys (JSObject.set k v o)) <= S (length (JSObject.keys o)))
    as Hset.
  { intros k v o0. destruct (decide (k ∈ JSObject.keys o0)).
    - rewrite set_keys_old by done. lia.
    - rewrite set_new by done. unfold JSObject.keys.
      rewrite map_app, length_app. simpl. lia. }
  unfold Normalizer.parseEvent.
  destruct (Normalizer.formattedDate env g) as [k|]; [|simpl; lia].
  destruct (JSObject.get k o) as [b|] eqn:E.
  - destruct (JSString.match_range _) as [[g1 g2]|]; simpl; [|lia].
    rewrite E. simpl. rewrite set_keys_old; [lia|].
    apply dec_stable. intros Hn. apply get_None in Hn. congruence.
  - destruct (JSString.match_range _) as [[g1 g2]|]; simpl; [|apply Hset].
    rewrite get_set_eq. simpl. rewrite set_keys_old; [apply Hset|].
    apply set_keys_elem. by left.
Qed.

Lemma forEach_keys_length events o log :
  length (JSObject.keys (Normalizer.forEach env events (o, log)).1)
  <= length (JSObject.keys o) + length events.
Proof.
  revert o log. induction events as [|g events IH]; intros o log; simpl; [lia|].
  pose proof (parseEvent_keys_length g o) as H.
  destruct (Normalizer.parseEvent env g o) as [[e|] o']; simpl in H;
    etransitivity; [apply IH|lia|apply IH|lia].
Qed.

Lemma dated_iff key events :
  dated env key events = true
  <-> exists g, g ∈ events /\ Normalizer.formattedDate env g = Some key.
Proof.
  unfold dated. rewrite existsb_exists. split.
  - intros (g & Hg & Hd). exists g. split; [by apply list_elem_of_In|].
    by apply bool_decide_eq_true_1 in Hd.
  - intros (g & Hg & Hd). exists g. split; [by apply list_elem_of_In|].
    by apply bool_decide_eq_true_2.
Qed.

Lemma insert_filter {A} (le : A -> A -> bool) (P : A -> Prop)
    `{!forall x, Decision (P x)} x l :
  (forall a b, P a -> P b -> le a b = true) ->
  filter P (JSArray.insert le x l) = filter P (x :: l).
Proof.
  intros HP. induction l as [|y l IH]; simpl; [done|].
  destruct (le x y) eqn:E; [done|].
  rewrite filter_cons, IH, !filter_cons.
  destruct (decide (P y)), (decide (P x)); try done.
  rewrite HP in E; done.
Qed.

Lemma sort_filter {A} (le : A -> A -> bool) (P : A -> Prop)
    `{!forall x, Decision (P x)} l :
  (forall a b, P a -> P b -> le a b = true) ->
  filter P (JSArray.sort le l) = filter P l.
Proof.
  intros HP. induction l as [|x l IH]; simpl; [done|].
  rewrite insert_filter by done. by rewrite !filter_cons, IH.
Qed.

End MoreNormalizer.

(** ** Trimming, durations and types *)
Section Trim.
Import JSString.

Lemma trimEnd_cons c s :
  trimEnd (String c s)
  = match trimEnd s with
    | EmptyString => if is_space c then EmptyString else String c EmptyString
    | t => String c t
    end.
Proof. done. Qed.

Lemma trimEnd_idem s : trimEnd (trimEnd s) = trimEnd s.
Proof.
  induction s as [|c s IH]; [done|]. rewrite trimEnd_cons.
  destruct (trimEnd s) as [|d t] eqn:E.
  - destruct (is_space c) eqn:Hc; [done|]. rewrite trimEnd_cons. simpl.
    by rewrite Hc.
  - rewrite trimEnd_cons, IH. done.
Qed.

Lemma trimEnd_head c s :
  is_space c = false -> exists t, trimEnd (String c s) = String c t.
Proof.
  intros Hc. rewrite trimEnd_cons. destruct (trimEnd s); [rewrite Hc|]; eauto.
Qed.

Lemma trimStart_head s :
  trimStart s = EmptyString
  \/ exists c t, trimStart s = String c t /\ is_space c = false.
Proof.
  induction s as [|c s IH]; simpl; [by left|].
  destruct (is_space c) eqn:Hc; [done|]. right. eauto.
Qed.

(** [trim] leaves a trimmed text as it is. *)
Lemma trim_idem s : trim (trim s) = trim s.
Proof.
  unfold trim. destruct (trimStart_head s) as [->|(c & t & -> & Hc)]; [done|].
  destruct (trimEnd_head c t Hc) as [t' Ht]. rewrite Ht.
  cbn [trimStart]. rewrite Hc, <- Ht. apply trimEnd_idem.
Qed.

Lemma match_duration_none s :
  includes s "Duration:" = false -> match_duration s = None.
Proof.
  induction s as [|c s IH]; [done|].
  cbn [includes match_duration].
  intros [H1 H2]%orb_false_iff. rewrite H1. auto.
Qed.

End Trim.

Section DurationAndType.
Import JSString.

Lemma startsWith_nil s : startsWith s EmptyString = true.
Proof. by destruct s. Qed.

Lemma startsWith_app p s : startsWith (p +:+ s) p = true.
Proof.
  induction p as [|c p IH]; [apply startsWith_nil|].
  change (String c p +:+ s) with (String c (p +:+ s)). simpl.
  by rewrite Ascii.eqb_refl, IH.
Qed.

Lemma skip_app p s : skip (String.length p) (p +:+ s) = s.
Proof.
  induction p as [|c p IH]; [by destruct s|].
  change (String c p +:+ s) with (String c (p +:+ s)). simpl. apply IH.
Qed.

Lemma match_duration_cons c s :
  match_duration (String c s)
  = if startsWith (String c s) "Duration:" then
      match duration_group (skip 9 (String c s)) with
      | Some g => Some g
      | None => match_duration s
      end
    else match_duration s.
Proof. done. Qed.

Lemma white_dropSpaces ws c r :
  white ws = true -> is_space c = false ->
  dropSpaces (ws +:+ String c r) = String c r.
Proof.
  intros Hw Hc. induction ws as [|w ws IH].
  - change (EmptyString +:+ String c r) with (String c r). simpl. by rewrite Hc.
  - apply andb_true_iff in Hw as [Hs Hw].
    change (String w ws +:+ String c r) with (String w (ws +:+ String c r)).
    simpl. rewrite Hs. auto.
Qed.

(** The label, white space, and a text: the group is the first line of
    the text. *)
Lemma label_text ws c r :
  white ws = true -> is_space c = false ->
  match_duration ("Duration:" +:+ ws +:+ String c r)
  = Some (takeLine (String c r)).
Proof.
  intros Hw Hc.
  change ("Duration:" +:+ ws +:+ String c r)
    with (String "D" ("uration:" +:+ ws +:+ String c r)).
  rewrite match_duration_cons.
  change (String "D" ("uration:" +:+ ws +:+ String c r))
    with ("Duration:" +:+ ws +:+ String c r).
  rewrite startsWith_app, (skip_app "Duration:").
  unfold duration_group. by rewrite white_dropSpaces.
Qed.

Lemma lower_idem c : lower (lower c) = lower c.
Proof. destruct c as [[] [] [] [] [] [] [] []]; reflexivity. Qed.

Lemma toLowerCase_idem s : toLowerCase (toLowerCase s) = toLowerCase s.
Proof. induction s as [|c s IH]; simpl; [done|]. by rewrite lower_idem, IH. Qed.

Lemma eventType_label name : Normalizer.eventType name ∈ type_labels.
Proof.
  unfold Normalizer.eventType, type_labels.
  repeat match goal with
         | |- context [if ?b then _ else _] => destruct b
         end; apply list_elem_of_In; simpl; tauto.
Qed.

End DurationAndType.

(** ** What step 4 and step 5 give *)
Section NormalizerExtras.
Import JSString.

(** The fragment an event of the output comes from. *)
Lemma normalize_source env events key evs e :
  (key, evs) ∈ normalize env events -> e ∈ evs ->
  exists g g1 g2,
    g ∈ events /\ contribution env key g = [e]
    /\ match_range (RawEvent.timeText g) = Some (g1, g2)
    /\ e = Normalizer.monopolyEvent g g1 g2.
Proof.
  intros Hin He.
  destruct (normalize_elem _ _ _ _ _ Hin He) as (g & g1 & g2 & Hg & Hk & Hm & ->).
  exists g, g1, g2. split_and!; [done| |done|done].
  unfold contribution. rewrite decide_True by done. by rewrite Hm.
Qed.

End NormalizerExtras.

(** X1. The date keys of the output are the dates of the fragments: a
    key is there exactly when the date text of some fragment gives it,
    whether that fragment gives an event or not. *)
Theorem X1_normalize_keys env events key :
  key ∈ JSObject.keys (normalize env events)
  <-> exists g, g ∈ events /\ Normalizer.formattedDate env g = Some key.
Proof.
  rewrite <- dated_iff. pose proof (normalize_get env events key) as H.
  destruct (dated env key events).
  - split; [done|]. intros _. apply dec_stable. intros Hn.
    apply get_None in Hn. by pose proof (eq_trans (eq_sym H) Hn).
  - split; [|done]. intros Hin. apply get_None in H. done.
Qed.

(** X2. The output holds one event for every fragment with a date and a
    time range, and no other: it never has more events, nor more dates,
    than there are fragments. *)
Theorem X2_normalize_count env events :
  total (normalize env events) = length (filter (fun g => accepted env g) events)
  /\ total (normalize env events) <= length events
  /\ length (JSObject.keys (normalize env events)) <= length events.
Proof.
  unfold normalize.
  destruct (sortedEventsByDate_total
              (Normalizer.forEach env events ([], [])).1) as [Ht Hk].
  { apply forEach_NoDup, NoDup_nil_2. }
  rewrite Ht, Hk, forEach_total. split_and!; [done| |].
  - simpl. apply length_filter.
  - apply (forEach_keys_length env events [] []).
Qed.

(** X3. The list of a date holds the events of the fragments of that
    date, each once, and the sort of step 5 is stable: events with the
    same start time keep the order of their fragments. *)
Theorem X3_bucket_is_stable env events key evs :
  JSObject.get key (normalize env events) = Some evs ->
  evs ≡ₚ concat (map (contribution env key) events)
  /\ forall t,
       filter (fun e => MonopolyEvent.startTime e = t) evs
       = filter (fun e => MonopolyEvent.startTime e = t)
           (concat (map (contribution env key) events)).
Proof.
  rewrite normalize_get. destruct (dated env key events); [|done].
  intros [= <-]. split; [apply sort_Permutation|].
  intros t. apply sort_filter. intros a b Ha Hb.
  unfold Normalizer.localeCompare_le. rewrite Ha, Hb. apply str_le_refl.
Qed.

Lemma X3_witness :
  [event_A; heist_event; bash_event]
  ≡ₚ concat (map (contribution (smooth_env 0 []) "2025-05-29")
               shuffled_fragments)
  /\ forall t,
       filter (fun e => MonopolyEvent.startTime e = t)
         [event_A; heist_event; bash_event]
       = filter (fun e => MonopolyEvent.startTime e = t)
           (concat (map (contribution (smooth_env 0 []) "2025-05-29")
                      shuffled_fragments)).
Proof.
  apply (X3_bucket_is_stable (smooth_env 0 []) shuffled_fragments
           "2025-05-29" [event_A; heist_event; bash_event]).
  reflexivity.
Defined.

(** X4. Both times of every event of the output have the shape
    [YYYY-MM-DDTHH:MM:SS]. *)
Theorem X4_event_stamps env events key evs e :
  (key, evs) ∈ normalize env events -> e ∈ evs ->
  shaped iso_stamp (MonopolyEvent.startTime e)
  /\ shaped iso_stamp (MonopolyEvent.endTime e).
Proof.
  intros Hin He.
  destruct (normalize_source _ _ _ _ _ Hin He)
    as (g & g1 & g2 & Hg & Hk & Hm & ->).
  destruct (match_range_shaped _ _ _ Hm) as [H1 H2].
  split; by apply isoTime_shaped.
Qed.

Lemma X4_witness :
  shaped iso_stamp (MonopolyEvent.startTime event_A)
  /\ shaped iso_stamp (MonopolyEvent.endTime event_A).
Proof.
  apply (X4_event_stamps (smooth_env 0 []) [fragment_A] "2025-05-29"
           [event_A] event_A).
  - apply (list_elem_of_lookup_2 _ 0). reflexivity.
  - left.
Defined.

(** X5. Every event of the output has an icon address that starts with
    [http]: the address of its fragment when that starts so, and that
    address after the site's origin in every other case, the empty
    address too. *)
Theorem X5_event_icon env events key evs e :
  (key, evs) ∈ normalize env events -> e ∈ evs ->
  exists g u,
    g ∈ events /\ contribution env key g = [e]
    /\ MonopolyEvent.imageUrl e = Some u
    /\ JSString.startsWith u "http" = true
    /\ (JSString.startsWith (RawEvent.imageUrl g) "http" = true ->
        u = RawEvent.imageUrl g)
    /\ (JSString.startsWith (RawEvent.imageUrl g) "http" = false ->
        u = "https://monopolygo.game" +:+ RawEvent.imageUrl g).
Proof.
  intros Hin He.
  destruct (normalize_source _ _ _ _ _ Hin He)
    as (g & g1 & g2 & Hg & Hk & Hm & ->).
  exists g. eexists. split; [done|]. split; [done|]. split; [reflexivity|].
  simpl. destruct (JSString.startsWith (RawEvent.imageUrl g) "http") eqn:E.
  - by split_and!.
  - by split_and!.
Qed.

Lemma X5_witness :
  exists g u,
    g ∈ [fragment_A]
    /\ contribution (smooth_env 0 []) "2025-05-29" g = [event_A]
    /\ MonopolyEvent.imageUrl event_A = Some u
    /\ JSString.startsWith u "http" = true
    /\ (JSString.startsWith (RawEvent.imageUrl g) "http" = true ->
        u = RawEvent.imageUrl g)
    /\ (JSString.startsWith (RawEvent.imageUrl g) "http" = false ->
        u = "https://monopolygo.game" +:+ RawEvent.imageUrl g).
Proof.
  apply (X5_event_icon (smooth_env 0 []) [fragment_A] "2025-05-29"
           [event_A] event_A).
  - apply (list_elem_of_lookup_2 _ 0). reflexivity.
  - left.
Defined.

(** X6. The duration of every event of the output is a trimmed text.
    It is [Unknown] when the duration text of its fragment does not hold
    the label, and when it is the label and nothing else.  When the
    duration text is the label, then white space or none, then a text that
    starts with another character, the duration is the first line of that
    text, trimmed. *)
Theorem X6_event_duration env events key evs e :
  (key, evs) ∈ normalize env events -> e ∈ evs ->
  JSString.trim (MonopolyEvent.duration e) = MonopolyEvent.duration e
  /\ exists g,
       g ∈ events /\ contribution env key g = [e]
       /\ (JSString.includes (RawEvent.durationText g) "Duration:" = false ->
           MonopolyEvent.duration e = "Unknown")
       /\ (RawEvent.durationText g = "Duration:" ->
           MonopolyEvent.duration e = "Unknown")
       /\ (forall ws c r,
             RawEvent.durationText g = "Duration:" +:+ ws +:+ String c r ->
             white ws = true -> JSString.is_space c = false ->
             MonopolyEvent.duration e
             = JSString.trim (JSString.takeLine (String c r))).
Proof.
  intros Hin He.
  destruct (normalize_source _ _ _ _ _ Hin He)
    as (g & g1 & g2 & Hg & Hk & Hm & ->).
  simpl. split.
  - destruct (JSString.match_duration _); [apply trim_idem|done].
  - exists g. split_and!; [done..| | |].
    + intros H. by rewrite match_duration_none.
    + by intros ->.
    + intros ws c r -> Hw Hc. by rewrite label_text.
Qed.

(** The three cases on the shuffled fragments: a label with a text, the
    bare label, and no duration text. *)
Lemma X6_witness :
  (RawEvent.durationText fragment_A = "Duration:" +:+ " " +:+ "5 Minutes"
   /\ MonopolyEvent.duration event_A = "5 Minutes")
  /\ (RawEvent.durationText bash_fragment = "Duration:"
      /\ MonopolyEvent.duration bash_event = "Unknown")
  /\ (JSString.includes (RawEvent.durationText blitz_fragment) "Duration:"
      = false
      /\ MonopolyEvent.duration blitz_event = "Unknown").
Proof.
  split; [split; [reflexivity|]
         |split; [split; [reflexivity|]|split; [reflexivity|]]].
  - destruct (X6_event_duration (smooth_env 0 []) shuffled_fragments
                "2025-05-29" [event_A; heist_event; bash_event] event_A)
      as (_ & g & Hg & Hc & _ & _ & H).
    { apply (list_elem_of_lookup_2 _ 0). reflexivity. }
    { left. }
    not_this Hg Hc. not_this Hg Hc.
    apply elem_of_cons in Hg as [Hg|Hg].
    { subst g. exact (H " " "5"%char " Minutes" eq_refl eq_refl eq_refl). }
    not_this Hg Hc. by apply elem_of_nil in Hg.
  - destruct (X6_event_duration (smooth_env 0 []) shuffled_fragments
                "2025-05-29" [event_A; heist_event; bash_event] bash_event)
      as (_ & g & Hg & Hc & _ & H & _).
    { apply (list_elem_of_lookup_2 _ 0). reflexivity. }
    { right. right. left. }
    not_this Hg Hc. not_this Hg Hc. not_this Hg Hc.
    apply elem_of_cons in Hg as [Hg|Hg].
    { subst g. exact (H eq_refl). }
    by apply elem_of_nil in Hg.
  - destruct (X6_event_duration (smooth_env 0 []) shuffled_fragments
                "2025-05-30" [blitz_event] blitz_event)
      as (_ & g & Hg & Hc & H & _ & _).
    { apply (list_elem_of_lookup_2 _ 1). reflexivity. }
    { left. }
    apply elem_of_cons in Hg as [Hg|Hg].
    { subst g. exact (H eq_refl). }
    not_this Hg Hc. not_this Hg Hc. not_this Hg Hc.
    by apply elem_of_nil in Hg.
Defined.

(** X7. Every event of the output has a type, one of seven labels; the
    label depends on the name without regard to the case of its letters,
    and a name that holds [milestone] gives [Milestone] whatever else it
    holds. *)
Theorem X7_event_type env events key evs e :
  (key, evs) ∈ normalize env events -> e ∈ evs ->
  exists label,
    MonopolyEvent.type e = Some label /\ label ∈ type_labels
    /\ label = Normalizer.eventType (JSString.toLowerCase (MonopolyEvent.name e))
    /\ (JSString.includes (JSString.toLowerCase (MonopolyEvent.name e))
          "milestone" = true -> label = "Milestone").
Proof.
  intros Hin He.
  destruct (normalize_source _ _ _ _ _ Hin He)
    as (g & g1 & g2 & Hg & Hk & Hm & ->).
  eexists. split; [reflexivity|]. split; [apply eventType_label|].
  simpl. unfold Normalizer.eventType. split.
  - by rewrite toLowerCase_idem.
  - by intros ->.
Qed.

Lemma X7_witness :
  exists label,
    MonopolyEvent.type event_A = Some label /\ label ∈ type_labels
    /\ label = Normalizer.eventType
                 (JSString.toLowerCase (MonopolyEvent.name event_A))
    /\ (JSString.includes (JSString.toLowerCase (MonopolyEvent.name event_A))
          "milestone" = true -> label = "Milestone").
Proof.
  apply (X7_event_type (smooth_env 0 []) [fragment_A] "2025-05-29"
           [event_A] event_A).
  - apply (list_elem_of_lookup_2 _ 0). reflexivity.
  - left.
Defined.

(** ** The run as a whole *)

(** Only the date parser of the host matters to step 4. *)
Lemma forEach_Date_parse env env' events acc :
  Date_parse env = Date_parse env' ->
  Normalizer.forEach env events acc = Normalizer.forEach env' events acc.
Proof.
  intros H. revert acc. induction events as [|g events IH]; intros [o log]; [done|].
  simpl. unfold Normalizer.parseEvent, Normalizer.formattedDate. rewrite H.
  destruct (JSDate.toISOString _); [|apply IH].
  destruct (JSString.match_range _) as [[g1 g2]|]; [|apply IH].
  destruct (JSObject.get _ _); apply IH.
Qed.

(** X8. The progress values of a response are the first [n] of 10, 25,
    50, 75, 90, 100, in that order, for the [n] steps the run started, and
    one more 100 when the run fails: a failed run jumps to 100 from where
    it stood, and only a run that reached 100 by itself can succeed. *)
Theorem X8_progress_values env :
  exists n, 1 <= n <= 6 /\
  exists success events successfulMethod error,
    terminal env = Some (Final success events successfulMethod error)
    /\ progress_values (Route.GET env)
       = take n checkpoints ++ (if success then [] else [100%Z])
    /\ (success = true -> n = 6).
Proof.
  unfold terminal. rewrite !GET_unfold. run env.
  all: first [try_n 1 | try_n 2 | try_n 3 | try_n 4 | try_n 5 | try_n 6].
Qed.

(** X9. A failure of the [close] in the [catch] is not seen in the
    response: whatever that call does, the records are the same. *)
Theorem X9_cleanup_failure_is_hidden env c :
  Route.GET (set_close_cleanup c env) = Route.GET env.
Proof.
  rewrite !GET_unfold.
  remember (Route.start (set_close_cleanup c env)) as r1 eqn:H1.
  remember (Route.start env) as r2 eqn:H2.
  destruct c; cases env; run_in H1; run_in H2; subst; cbn [fst snd Route.chunks].
  all: try done.
  all: match goal with
       | |- context [Normalizer.forEach ?e1 ?ev ?acc] =>
           match goal with
           | |- _ = ?rhs =>
               match rhs with
               | context [Normalizer.forEach ?e2 ev acc] =>
                   rewrite (forEach_Date_parse e1 e2 ev acc eq_refl)
               end
           end
       end.
  all: done.
Qed.

(** X10. A run whose [try] throws a value without the words of the
    fallback ends with [success: false], no events, no method name and,
    as error, the message of what was thrown, or [Unknown error occurred]
    when that is no [Error]; the failed step of the last step list carries
    the same message, or [Unknown error]. *)
Theorem X10_failure_texts env e :
  (Route.tried env).1 = inl e ->
  Route.not_available e = false ->
  terminal env = Some (Final false None None (Some (final_error_text e)))
  /\ forall N, failing_step env = Some N ->
       exists ms m, last_broadcast env = Some ms /\ ms !! pred N = Some m
                    /\ ScrapingMethod.status m = failed
                    /\ ScrapingMethod.error m = Some (step_error_text e).
Proof.
  unfold terminal, last_broadcast. rewrite !GET_unfold. run env.
  all: intros [= <-] Hna; simpl in Hna; try congruence.
  all: split; [reflexivity|].
  all: unfold failing_step; simpl; intros N [= <-].
  all: eexists _, _; split; [reflexivity|]; split; [reflexivity|]; by split.
Qed.

Lemma X10_witness :
  terminal launch_fails_env
  = Some (Final false None None (Some "Unknown error occurred"))
  /\ forall N, failing_step launch_fails_env = Some N ->
       exists ms m, last_broadcast launch_fails_env = Some ms
                    /\ ms !! pred N = Some m
                    /\ ScrapingMethod.status m = failed
                    /\ ScrapingMethod.error m = Some "Unknown error".
Proof.
  apply (X10_failure_texts launch_fails_env NotError); reflexivity.
Defined.

(** X11. When the [close] that ends the [try] throws, the events are
    lost: all the five steps are reported successful, and the final record
    has [success: false], no events and the message of the [close]. *)
Theorem X11_close_failure_discards_events env events e :
  import_puppeteer env = true -> launch env = None -> load_page env = None ->
  evaluate env = inr (Extracted events) -> close_done env = Some e ->
  Route.not_available e = false ->
  terminal env = Some (Final false None None (Some (final_error_text e)))
  /\ exists ms, last_broadcast env = Some ms
                /\ Forall (fun m => ScrapingMethod.status m = success) ms.
Proof.
  unfold terminal, last_broadcast. rewrite !GET_unfold. run env.
  all: simpl; intros Hi Hl Hp He Hc Hna; try discriminate.
  all: injection He as <-; injection Hc as <-; simpl in Hna; try congruence.
  all: split; [reflexivity|]; eexists; split; [reflexivity|].
  all: by repeat constructor.
Qed.

Lemma X11_witness :
  terminal close_fails_env
  = Some (Final false None None (Some "Target closed"))
  /\ exists ms, last_broadcast close_fails_env = Some ms
                /\ Forall (fun m => ScrapingMethod.status m = success) ms.
Proof.
  apply (X11_close_failure_discards_events close_fails_env [fragment_A]
           (Error "Target closed")); reflexivity.
Defined.

(** X12. On a run where all goes well the last step list reports, for
    step 3, the number of fragments and, for step 4, the numbers of events
    and of dates of the events sent. *)
Theorem X12_step_results env events :
  smooth env events ->
  exists ms m3 m4,
    last_broadcast env = Some ms
    /\ ms !! 2 = Some m3
    /\ ScrapingMethod.result m3 = Some (eventsFound (length events))
    /\ ms !! 3 = Some m4
    /\ ScrapingMethod.result m4
       = Some (totals (total (normalize env events))
                      (length (JSObject.keys (normalize env events)))).
Proof.
  intros (Hi & Hl & Hp & He & Hc).
  unfold normalize.
  destruct (sortedEventsByDate_total
              (Normalizer.forEach env events ([], [])).1) as [Ht Hk].
  { apply forEach_NoDup, NoDup_nil_2. }
  rewrite Ht, Hk. unfold last_broadcast. rewrite GET_unfold.
  destruct env as [dp dn imp la lp ev cd cc]; simpl in *; subst.
  remember (Route.start _) as r eqn:Hr. run_in Hr. subst r.
  cbn [fst snd Route.chunks].
  eexists _, _, _. split; [reflexivity|]. split; [reflexivity|].
  split; [reflexivity|]. split; reflexivity.
Qed.

Lemma X12_witness :
  exists ms m3 m4,
    last_broadcast (smooth_env 0 [fragment_A; untimed_fragment]) = Some ms
    /\ ms !! 2 = Some m3
    /\ ScrapingMethod.result m3 = Some (eventsFound 2)
    /\ ms !! 3 = Some m4
    /\ ScrapingMethod.result m4 = Some (totals 1 1).
Proof.
  apply (X12_step_results (smooth_env 0 [fragment_A; untimed_fragment])
           [fragment_A; untimed_fragment]).
  by repeat split.
Defined.

(** X13. Every step list sent has the five names in their order;
    successful steps come first, then at most one running or failed step,
    then pending steps; and a step has a result and a duration exactly
    when it is successful, an error exactly when it is failed. *)
Theorem X13_step_list_invariant env progress ms :
  Progress progress ms ∈ Route.GET env ->
  map ScrapingMethod.name ms = map ScrapingMethod.name (Route.methods Route.initial)
  /\ forallb fields_agree ms = true
  /\ in_order (map ScrapingMethod.status ms) = true.
Proof.
  rewrite GET_unfold. run env.
  all: intros H; repeat (apply elem_of_cons in H as [[= -> ->]|H]).
  all: try (by apply elem_of_nil in H).
  all: by vm_compute.
Qed.

Lemma X13_witness :
  map ScrapingMethod.name first_broadcast
  = map ScrapingMethod.name (Route.methods Route.initial)
  /\ forallb fields_agree first_broadcast = true
  /\ in_order (map ScrapingMethod.status first_broadcast) = true.
Proof.
  apply (X13_step_list_invariant (smooth_env 0 []) 10).
  apply (list_elem_of_lookup_2 _ 0). reflexivity.
Defined.

(** X14. When the clock of the host does not run backwards, every
    duration sent is non-negative: it is the difference of two successive
    readings of the clock, the one at the start of the step and the next
    one. *)
Theorem X14_durations env progress ms m d :
  (forall n, (Date_now env n <= Date_now env (S n))%Z) ->
  Progress progress ms ∈ Route.GET env ->
  m ∈ ms -> ScrapingMethod.duration m = Some d ->
  (0 <= d)%Z /\ exists i, d = (Date_now env (S (2 * i)) - Date_now env (2 * i))%Z.
Proof.
  rewrite GET_unfold. run env.
  all: cbn [Date_now]; intros Hclock H;
    repeat (apply elem_of_cons in H as [[= -> ->]|H]).
  all: try (by apply elem_of_nil in H).
  all: intros Hm; repeat (apply elem_of_cons in Hm as [->|Hm]).
  all: try (by apply elem_of_nil in Hm).
  all: cbn [ScrapingMethod.duration]; intros [= <-].
  all: first [ split; [pose proof (Hclock 0%nat); lia|by exists 0%nat]
             | split; [pose proof (Hclock 2%nat); lia|by exists 1%nat]
             | split; [pose proof (Hclock 4%nat); lia|by exists 2%nat]
             | split; [pose proof (Hclock 6%nat); lia|by exists 3%nat]
             | split; [pose proof (Hclock 8%nat); lia|by exists 4%nat] ].
Qed.

Lemma X14_witness :
  (0 <= 1)%Z
  /\ exists i, 1%Z = (Date_now (smooth_env 0 []) (S (2 * i))
                      - Date_now (smooth_env 0 []) (2 * i))%Z.
Proof.
  apply (X14_durations (smooth_env 0 []) 25 launched_broadcast
           (ScrapingMethod.mk "Puppeteer Browser Automation" success
              (Some browserLaunched) None (Some 1%Z))).
  - intros n. simpl. lia.
  - apply (list_elem_of_lookup_2 _ 1). reflexivity.
  - left.
  - reflexivity.
Defined.

(** ** Step 3: the extractor *)
Section ExtractorFacts.
Import JSString JSText DOM.

Lemma takeLine_idem s : takeLine (takeLine s) = takeLine s.
Proof.
  induction s as [|c s IH]; simpl; [done|].
  destruct (is_line_terminator c) eqn:E; simpl; [done|]. by rewrite E, IH.
Qed.

Lemma match_header_line s d :
  match_header s = Some d -> takeLine d = d /\ d <> EmptyString.
Proof.
  revert d. induction s as [|c s IH]; intros d; [done|].
  cbn [match_header].
  destruct (startsWith (String c s) "Events for "); [|by auto].
  destruct (skip 11 (String c s)) as [|c' t]; [by auto|].
  destruct (is_line_terminator c') eqn:E; [by auto|].
  intros [= <-]. split; [apply (takeLine_idem (String c' t))|].
  simpl. by rewrite E.
Qed.

(** What the scan holds after any number of [div]s: the texts of the
    last [div] with a time range and of the last with the label. *)
Lemma scan_last allDivs :
  Extractor.scan allDivs
  = (default EmptyString
       (last (filter (fun t => is_Some (match_range t))
                (map (fun d => Extractor.text d.2) allDivs))),
     default EmptyString
       (last (filter (fun t => includes t "Duration:" = true)
                (map (fun d => Extractor.text d.2) allDivs)))).
Proof.
  unfold Extractor.scan.
  induction allDivs as [|d ds IH] using rev_ind; [done|].
  rewrite fold_left_app, IH, map_app, !filter_app. simpl.
  rewrite !filter_cons, !filter_nil.
  destruct (match_range (Extractor.text d.2)) eqn:E1;
    destruct (includes (Extractor.text d.2) "Duration:") eqn:E2.
  - rewrite decide_True by eauto. rewrite decide_True by done.
    by rewrite !last_snoc.
  - rewrite decide_True by eauto. rewrite decide_False by done.
    by rewrite last_snoc, app_nil_r.
  - rewrite decide_False by (by intros [? ?]). rewrite decide_True by done.
    by rewrite last_snoc, app_nil_r.
  - rewrite decide_False by (by intros [? ?]). rewrite decide_False by done.
    by rewrite !app_nil_r.
Qed.

Lemma last_filter_holds {A} (P : A -> Prop) `{!forall x, Decision (P x)} l x :
  last (filter P l) = Some x -> P x.
Proof.
  intros Hl. apply last_Some_elem_of in Hl.
  by apply list_elem_of_filter in Hl as [? _].
Qed.

Lemma scan_texts allDivs timeText durationText :
  Extractor.scan allDivs = (timeText, durationText) ->
  (timeText = EmptyString \/ is_Some (match_range timeText))
  /\ (durationText = EmptyString \/ includes durationText "Duration:" = true).
Proof.
  rewrite scan_last. intros [= <- <-]. split.
  - destruct (last _) eqn:E; [right|by left]. by apply last_filter_holds in E.
  - destruct (last _) eqn:E; [right|by left]. by apply last_filter_holds in E.
Qed.

Lemma image_fragment document dateStr img f :
  Extractor.image document dateStr img = Some f ->
  RawEvent.date f = dateStr
  /\ trim (RawEvent.name f) = RawEvent.name f
  /\ (RawEvent.timeText f = EmptyString \/ is_Some (match_range (RawEvent.timeText f)))
  /\ (RawEvent.durationText f = EmptyString
      \/ includes (RawEvent.durationText f) "Duration:" = true).
Proof.
  unfold Extractor.image.
  destruct (or_else _ _) as [|c n]; [done|].
  destruct (closest _ _ _) as [div|]; [|done].
  destruct (parentElement div) as [eventContainer|]; [|done].
  destruct (node_at _ _) as [container|]; [|done].
  destruct (Extractor.scan _) as [timeText durationText] eqn:Hs.
  intros [= <-]. simpl. apply scan_texts in Hs.
  split_and!; [done|apply trim_idem|tauto|tauto].
Qed.

Lemma extract_fragment document events f :
  Extractor.extract document = Extracted events -> f ∈ events ->
  exists li dateSpan img,
    Extractor.image document (RawEvent.date f) img = Some f
    /\ querySelector (Type_ "span") li.1 li.2 = Some dateSpan
    /\ match_header (Extractor.text dateSpan.2) = Some (RawEvent.date f).
Proof.
  unfold Extractor.extract.
  destruct (document_querySelector _ _) as [eventBox|]; [|done].
  intros [= <-] Hf.
  apply list_elem_of_In, in_flat_map in Hf as (li & _ & Hf).
  apply list_elem_of_In in Hf. unfold Extractor.dateItem in Hf.
  destruct (querySelector _ _ _) as [dateSpan|] eqn:Hspan;
    [|by apply elem_of_nil in Hf].
  destruct (negb _); [by apply elem_of_nil in Hf|].
  destruct (match_header _) as [dateStr|] eqn:Hd; [|by apply elem_of_nil in Hf].
  apply list_elem_of_omap in Hf as (img & _ & Himg).
  destruct (image_fragment _ _ _ _ Himg) as (<- & _).
  by exists li, dateSpan, img.
Qed.

(** No element of the document is the event box: the extractor says
    so, and only then. *)
Lemma extract_not_found document :
  Extractor.extract document = EventBoxNotFound
  <-> Forall (fun d => matches eventBox_selector d.2 = false)
        (([], document) :: descendants [] document).
Proof.
  unfold Extractor.extract, document_querySelector.
  fold eventBox_selector.
  set (all := ([], document) :: descendants [] document).
  destruct (filter (fun d => matches eventBox_selector d.2) all)
    as [|d l] eqn:E; cbn [head].
  - split; [|done]. intros _. apply Forall_forall. intros d Hd.
    destruct (matches eventBox_selector d.2) eqn:Hm; [|done].
    assert (d ∈ filter (fun d => matches eventBox_selector d.2) all) as Hin
      by (apply list_elem_of_filter; by rewrite Hm).
    rewrite E in Hin. by apply elem_of_nil in Hin.
  - split; [done|]. intros Hall.
    assert (d ∈ d :: l) as Hin by left. rewrite <- E in Hin.
    apply list_elem_of_filter in Hin as [Hm Hin].
    rewrite Forall_forall in Hall. pose proof (Hall d Hin) as Hf.
    by destruct (matches eventBox_selector d.2).
Qed.

End ExtractorFacts.

(** X15. Every fragment the extractor gives has a date that is not empty
    and holds no line terminator, a trimmed name, a time text that is
    empty or holds a time range, and a duration text that is empty or
    holds the label. *)
Theorem X15_extracted_fragment document events f :
  Extractor.extract document = Extracted events -> f ∈ events ->
  RawEvent.date f <> EmptyString
  /\ JSString.takeLine (RawEvent.date f) = RawEvent.date f
  /\ JSString.trim (RawEvent.name f) = RawEvent.name f
  /\ (RawEvent.timeText f = EmptyString
      \/ is_Some (JSString.match_range (RawEvent.timeText f)))
  /\ (RawEvent.durationText f = EmptyString
      \/ JSString.includes (RawEvent.durationText f) "Duration:" = true).
Proof.
  intros He Hf.
  destruct (extract_fragment _ _ _ He Hf) as (li & dateSpan & img & Hi & _ & Hd).
  destruct (match_header_line _ _ Hd) as [Hline Hne].
  destruct (image_fragment _ _ _ _ Hi) as (_ & Hn & Ht & Hdur).
  by split_and!.
Qed.

Lemma X15_witness :
  RawEvent.date fragment_A <> EmptyString
  /\ JSString.takeLine (RawEvent.date fragment_A) = RawEvent.date fragment_A
  /\ JSString.trim (RawEvent.name fragment_A) = RawEvent.name fragment_A
  /\ (RawEvent.timeText fragment_A = EmptyString
      \/ is_Some (JSString.match_range (RawEvent.timeText fragment_A)))
  /\ (RawEvent.durationText fragment_A = EmptyString
      \/ JSString.includes (RawEvent.durationText fragment_A) "Duration:" = true).
Proof.
  apply (X15_extracted_fragment page_example [fragment_A] fragment_A).
  - reflexivity.
  - left.
Defined.

(** X16. Step 4 keeps a fragment of the extractor exactly when its date
    text gives a date and its time text is not empty: a time text that
    the extractor found is one that step 4 reads. *)
Theorem X16_extracted_kept env document events f :
  Extractor.extract document = Extracted events -> f ∈ events ->
  (accepted env f = true
   <-> is_Some (Normalizer.formattedDate env f)
       /\ RawEvent.timeText f <> EmptyString).
Proof.
  intros He Hf.
  destruct (extract_fragment _ _ _ He Hf) as (li & dateSpan & img & Hi & _ & _).
  destruct (image_fragment _ _ _ _ Hi) as (_ & _ & Ht & _).
  unfold accepted. destruct (Normalizer.formattedDate env f) as [k|].
  - destruct Ht as [->|[g Hg]].
    + simpl. split; [done|]. by intros [_ ?].
    + rewrite Hg. split; [|done]. intros _. split; [by eexists|].
      intros E. by rewrite E in Hg.
  - split; [done|]. by intros [[? ?] _].
Qed.

Lemma X16_witness :
  accepted (smooth_env 0 []) fragment_A = true
  <-> is_Some (Normalizer.formattedDate (smooth_env 0 []) fragment_A)
      /\ RawEvent.timeText fragment_A <> EmptyString.
Proof.
  apply (X16_extracted_kept (smooth_env 0 []) page_example [fragment_A]
           fragment_A).
  - reflexivity.
  - left.
Defined.

(** X17. The time text and the duration text of a fragment are read in
    the parent of the nearest [div] around the image: among the texts of
    the [div]s below that parent, in document order, the last one with a
    time range and the last one with the label, and the empty text when
    there is none. *)
Theorem X17_last_div_wins document dateStr img f :
  Extractor.image document dateStr img = Some f ->
  exists div eventContainer container,
    DOM.closest (DOM.Type_ "div") document img.1 = Some div
    /\ DOM.parentElement div = Some eventContainer
    /\ DOM.node_at document eventContainer = Some container
    /\ let texts :=
         map (fun d => Extractor.text d.2)
           (DOM.querySelectorAll (DOM.Type_ "div") eventContainer container) in
       RawEvent.timeText f
       = default EmptyString
           (last (filter (fun t => is_Some (JSString.match_range t)) texts))
       /\ RawEvent.durationText f
          = default EmptyString
              (last (filter (fun t => JSString.includes t "Duration:" = true)
                       texts)).
Proof.
  unfold Extractor.image.
  destruct (JSText.or_else _ _) as [|c n]; [done|].
  destruct (DOM.closest _ _ _) as [div|] eqn:Hc; [|done].
  destruct (DOM.parentElement div) as [eventContainer|] eqn:Hp; [|done].
  destruct (DOM.node_at _ _) as [container|] eqn:Hn; [|done].
  rewrite scan_last. intros [= <-].
  exists div, eventContainer, container. cbv zeta. by split_and!.
Qed.

Lemma X17_witness :
  exists div eventContainer container,
    DOM.closest (DOM.Type_ "div") page_example image_example.1 = Some div
    /\ DOM.parentElement div = Some eventContainer
    /\ DOM.node_at page_example eventContainer = Some container
    /\ let texts :=
         map (fun d => Extractor.text d.2)
           (DOM.querySelectorAll (DOM.Type_ "div") eventContainer container) in
       RawEvent.timeText fragment_A
       = default EmptyString
           (last (filter (fun t => is_Some (JSString.match_range t)) texts))
       /\ RawEvent.durationText fragment_A
          = default EmptyString
              (last (filter (fun t => JSString.includes t "Duration:" = true)
                       texts)).
Proof.
  apply (X17_last_div_wins page_example "2025/05/29" image_example fragment_A).
  reflexivity.
Defined.

(** X18. When no element of the document is a [ul] of the class of the
    event box, the extractor reports so and the run fails at step 3: the
    final record has [success: false], no events, and the error
    [Event box not found]. *)
Theorem X18_page_without_box env document :
  Forall (fun d => DOM.matches eventBox_selector d.2 = false)
    (([], document) :: DOM.descendants [] document) ->
  import_puppeteer env = true -> launch env = None ->
  load_page env = None -> evaluate env = inr (Extractor.extract document) ->
  Extractor.extract document = EventBoxNotFound
  /\ terminal env = Some (Final false None None (Some "Event box not found"))
  /\ failing_step env = Some 3.
Proof.
  intros Hx%extract_not_found Hi Hl Hp He. split; [done|].
  rewrite Hx in He. unfold terminal, failing_step.
  rewrite GET_unfold, Hi, Hl, Hp, He.
  destruct env as [dp dn imp la lp ev cd cc]; simpl in *; subst.
  remember (Route.start _) as r eqn:Hr. destruct cc; run_in Hr; by subst r.
Qed.

Lemma X18_witness :
  Extractor.extract page_without_box = EventBoxNotFound
  /\ terminal (page_env page_without_box)
     = Some (Final false None None (Some "Event box not found"))
  /\ failing_step (page_env page_without_box) = Some 3.
Proof.
  apply (X18_page_without_box (page_env page_without_box) page_without_box);
    [|reflexivity..].
  repeat constructor.
Defined.

(** X19. An event box without list items is no failure: when all else
    goes well the run ends with [success: true] and an object of events
    without any date. *)
Theorem X19_box_without_items env document eventBox :
  DOM.document_querySelector eventBox_selector document = Some eventBox ->
  DOM.querySelectorAll (DOM.Type_ "li") eventBox.1 eventBox.2 = [] ->
  import_puppeteer env = true -> launch env = None -> load_page env = None ->
  evaluate env = inr (Extractor.extract document) -> close_done env = None ->
  terminal env
  = Some (Final true (Some []) (Some "Puppeteer Browser Automation") None).
Proof.
  intros Hb Hli Hi Hl Hp He Hc.
  assert (Extractor.extract document = Extracted []) as Hx.
  { unfold Extractor.extract. fold eventBox_selector. by rewrite Hb, Hli. }
  rewrite Hx in He.
  by destruct (smooth_terminal env [] ltac:(by repeat split)) as [-> _].
Qed.

Lemma X19_witness :
  terminal (page_env page_with_empty_box)
  = Some (Final true (Some []) (Some "Puppeteer Browser Automation") None).
Proof.
  apply (X19_box_without_items (page_env page_with_empty_box)
           page_with_empty_box
           ([0; 0], DOM.Element "ul" [("class", "events_eventBox__nV6sM")] []));
    reflexivity.
Defined.

(** ** The page *)

Example split_ex :
  Client.split ("a" +:+ String "010" ("b" +:+ String "010" "")) = ["a"; "b"; ""].
Proof. reflexivity. Qed.

Example decimal_ex : Client.decimal 503 = "503" /\ Client.decimal 0 = "0".
Proof. split; reflexivity. Qed.

Section ClientFacts.
Import Client.

Lemma string_app_cons c (a b : string) : String c a +:+ b = String c (a +:+ b).
Proof. done. Qed.

Lemma string_app_nil_r (s : string) : s +:+ EmptyString = s.
Proof. induction s as [|c s IH]; [done|]. by rewrite string_app_cons, IH. Qed.

Lemma string_app_assoc (a b c : string) : (a +:+ b) +:+ c = a +:+ (b +:+ c).
Proof. induction a as [|x a IH]; [done|]. by rewrite !string_app_cons, IH. Qed.

Lemma received_app xs ys : received (xs ++ ys) = received xs +:+ received ys.
Proof.
  induction xs as [|x xs IH]; [done|].
  simpl. fold (received (xs ++ ys)). fold (received xs).
  by rewrite IH, string_app_assoc.
Qed.

Lemma split_nonempty s : split s <> [].
Proof.
  destruct s as [|c s]; [done|]. simpl.
  destruct (Ascii.eqb c "010"); [done|]. by destruct (split s).
Qed.

Lemma split_app a b :
  split (a +:+ b) =
  removelast (split a) ++ split (default EmptyString (last (split a)) +:+ b).
Proof.
  induction a as [|c a IH]; [done|].
  change (String c a +:+ b) with (String c (a +:+ b)).
  cbn [split]. rewrite IH. clear IH.
  pose proof (split_nonempty a) as Ha.
  destruct (Ascii.eqb c "010") eqn:E.
  - by destruct (split a) as [|p ps].
  - destruct (split a) as [|p [|q ps]]; [done| |].
    + cbn [removelast last default from_option id app].
      change (String c p +:+ b) with (String c (p +:+ b)).
      cbn [split]. by rewrite E.
    + done.
Qed.

Lemma complete_lines_app a b :
  complete_lines (a +:+ b) =
  complete_lines a ++
  complete_lines (default EmptyString (last (split a)) +:+ b).
Proof.
  unfold complete_lines. rewrite split_app.
  apply removelast_app, split_nonempty.
Qed.

Lemma last_split_app a b :
  last (split (a +:+ b)) =
  last (split (default EmptyString (last (split a)) +:+ b)).
Proof.
  rewrite split_app.
  pose proof (split_nonempty (default EmptyString (last (split a)) +:+ b)) as H.
  destruct (split (default EmptyString (last (split a)) +:+ b)) as [|x l _] using rev_ind; [done|].
  by rewrite app_assoc, !last_snoc.
Qed.

(** The text after the last line feed holds no line feed. *)
Lemma split_last text :
  split (default EmptyString (last (split text)))
  = [default EmptyString (last (split text))].
Proof.
  induction text as [|c a IH]; [done|].
  pose proof (split_nonempty a) as Ha.
  cbn [split]. destruct (Ascii.eqb c "010") eqn:E.
  - by destruct (split a) as [|p ps].
  - destruct (split a) as [|p [|q ps]]; [done| |].
    + cbn [last default from_option id] in *. cbn [split]. by rewrite E, IH.
    + done.
Qed.

Lemma split_one_inv c a :
  split (String c a) = [String c a] ->
  Ascii.eqb c "010" = false /\ split a = [a].
Proof.
  cbn [split]. destruct (Ascii.eqb c "010"); [done|].
  pose proof (split_nonempty a) as Ha.
  destruct (split a) as [|p [|q ps]]; [done| |done].
  by intros [= ->].
Qed.

Lemma split_one_app a b :
  split a = [a] -> split b = [b] -> split (a +:+ b) = [a +:+ b].
Proof.
  intros Ha Hb. induction a as [|c a IH]; [done|].
  apply split_one_inv in Ha as [E Ha].
  change (String c a +:+ b) with (String c (a +:+ b)).
  cbn [split]. by rewrite E, (IH Ha).
Qed.

Lemma split_line l t :
  split l = [l] ->
  split (l +:+ String "010" t) = l :: split t.
Proof.
  intros Hl. induction l as [|c l IH]; [done|].
  apply split_one_inv in Hl as [E Hl].
  change (String c l +:+ String "010" t) with (String c (l +:+ String "010" t)).
  cbn [split]. by rewrite E, (IH Hl).
Qed.

(** The lines of the route's body are the texts of its records. *)
Lemma split_wire stringify cs :
  (forall c, c ∈ cs -> split (stringify c) = [stringify c]) ->
  split (wire stringify cs) = map stringify cs ++ [EmptyString].
Proof.
  induction cs as [|c cs IH]; intros H; [done|].
  unfold wire. cbn [map received foldr].
  fold (received (map (fun c => stringify c +:+ String "010" EmptyString) cs)).
  fold (wire stringify cs).
  rewrite string_app_assoc.
  change (String "010" EmptyString +:+ wire stringify cs)
    with (String "010" (wire stringify cs)).
  rewrite split_line by (apply H; left).
  rewrite IH; [done|]. intros c' Hc'. apply H. by right.
Qed.

(** The reader after the chunks [values]: the complete lines of the
    whole text have been handled, the rest is in the buffer. *)
Lemma read_all parse values acc text :
  fold_left (read parse) values
    (fold_left (line parse) (complete_lines text) acc,
     default EmptyString (last (split text))) =
  (fold_left (line parse) (complete_lines (text +:+ received values)) acc,
   default EmptyString (last (split (text +:+ received values)))).
Proof.
  revert text. induction values as [|v values IH]; intros text.
  - simpl. by rewrite string_app_nil_r.
  - cbn [fold_left received foldr]. fold (received values).
    rewrite <- string_app_assoc, <- IH. f_equal.
    unfold read. cbn [fst snd].
    fold (complete_lines (default EmptyString (last (split text)) +:+ v)).
    by rewrite (complete_lines_app text v), (last_split_app text v), fold_left_app.
Qed.

(** [scrapeEvents] on a body, by the complete lines of its text. *)
Lemma scrapeEvents_lines parse values failure :
  scrapeEvents parse (Body values failure) =
  let r := fold_left (line parse) (complete_lines (received values)) (reset, []) in
  (set_loading false
     (match failure with
      | Some err => set_error (message err) r.1
      | None => r.1
      end), r.2).
Proof.
  unfold scrapeEvents.
  pose proof (read_all parse values (reset, []) EmptyString) as H.
  change (fold_left (line parse) (complete_lines EmptyString) (reset, []),
          default EmptyString (last (split EmptyString)))
    with (reset, @nil string, EmptyString) in H.
  change (EmptyString +:+ received values) with (received values) in H.
  rewrite H. by destruct failure.
Qed.

(** Lines that carry records are handled as the records. *)
Lemma lines_handled stringify parse cs acc :
  round_trip stringify parse cs ->
  fold_left (line parse) (map stringify cs) acc
  = (fold_left handle cs acc.1, acc.2).
Proof.
  revert acc. induction cs as [|c cs IH]; intros acc H.
  - by destruct acc.
  - cbn [map fold_left].
    destruct (H c) as (_ & Ht & Hp); [by left|].
    rewrite IH by (intros c' Hc'; apply H; by right).
    unfold line. rewrite Hp.
    by destruct (JSString.trim (stringify c)).
Qed.

(** Progress records touch the bar and the step list only. *)
Lemma handle_progress ps st :
  Forall is_progress ps ->
  let st' := fold_left handle ps st in
  events st' = events st /\ loading st' = loading st /\ error st' = error st
  /\ successfulMethod st' = successfulMethod st.
Proof.
  intros H. revert st. induction H as [|c ps Hc _ IH]; intros st; [done|].
  cbn [fold_left]. destruct c as [p ms|]; [|done].
  destruct (IH (handle st (Progress p ms))) as (-> & -> & -> & ->). done.
Qed.

(** The records of a run: progress records, the last of them with
    progress 100, and the final record. *)
Lemma GET_shape env :
  exists ps ms s ev m e,
    Route.GET env = ps ++ [Progress 100 ms; Final s ev m e]
    /\ Forall is_progress ps
    /\ (s = true -> is_Some ev).
Proof.
  rewrite GET_unfold. run env.
  all: match goal with
       | |- exists ps : list Chunk, exists _ _ _ _ _, ?l = _ /\ _ =>
           exists (removelast (removelast l))
       end.
  all: eexists _, _, _, _, _; split; [reflexivity|].
  all: split; [by repeat constructor|]; try done; by eexists.
Qed.

End ClientFacts.

(** X20. The page handles the text of the response line by line, however
    the network cuts it into chunks: two sequences of chunks with the
    same text leave the same state and the same console. *)
Theorem X20_chunk_boundaries parse values values' failure :
  received values = received values' ->
  Client.scrapeEvents parse (Client.Body values failure)
  = Client.scrapeEvents parse (Client.Body values' failure).
Proof. intros H. by rewrite !scrapeEvents_lines, H. Qed.

Lemma X20_witness :
  Client.scrapeEvents (untag (Route.GET no_box_env))
    (Client.Body ["progress 1"; "0" +:+ String "010" "fin"; "al" +:+ String "010" ""] None)
  = Client.scrapeEvents (untag (Route.GET no_box_env))
      (Client.Body ["progress 10" +:+ String "010" ("final" +:+ String "010" "")] None).
Proof. apply X20_chunk_boundaries. reflexivity. Defined.

(** X21. Text after the last line feed is never handled: a last chunk
    without line feed changes nothing, whatever it holds. *)
Theorem X21_unterminated_line_dropped parse values tail failure :
  Client.split tail = [tail] ->
  Client.scrapeEvents parse (Client.Body (values ++ [tail]) failure)
  = Client.scrapeEvents parse (Client.Body values failure).
Proof.
  intros Ht. rewrite !scrapeEvents_lines, received_app.
  rewrite complete_lines_app.
  unfold complete_lines at 2.
  rewrite split_one_app; [by rewrite app_nil_r|apply split_last|].
  simpl. by rewrite string_app_nil_r.
Qed.

Lemma X21_witness :
  Client.scrapeEvents (untag (Route.GET no_box_env))
    (Client.Body (["progress 10" +:+ String "010" ""] ++ ["final"]) None)
  = Client.scrapeEvents (untag (Route.GET no_box_env))
      (Client.Body ["progress 10" +:+ String "010" ""] None).
Proof. apply X21_unterminated_line_dropped. reflexivity. Defined.

(** X22. The page shows events only when a complete line of the response
    was a final record with [success] and those events; and when
    [scrapeEvents] returns, [loading] is off, whatever the response. *)
Theorem X22_events_from_final_success parse response :
  let ui := (Client.scrapeEvents parse response).1 in
  Client.loading ui = false
  /\ forall evs, Client.events ui = Some evs ->
       exists values failure l m e,
         response = Client.Body values failure
         /\ l ∈ complete_lines (received values)
         /\ parse l = Client.Data (Final true (Some evs) m e).
Proof.
  intros ui. split; [done|]. intros evs.
  destruct response as [err|status statusText| |values failure]; [done..|].
  subst ui. rewrite scrapeEvents_lines. cbv zeta.
  intros H.
  assert (Client.events (fold_left (Client.line parse)
            (complete_lines (received values)) (Client.reset, [])).1 = Some evs)
    as H' by (by destruct failure).
  clear H. exists values, failure.
  revert H'. generalize (complete_lines (received values)) as ls.
  intros ls. induction ls as [|l ls IH] using rev_ind; [done|].
  rewrite fold_left_app. cbn [fold_left]. unfold Client.line at 1.
  destruct (JSString.trim l) eqn:Et.
  { intros (l' & m & e & ? & Hin & ?)%IH.
    exists l', m, e. split_and!; [done| |done]. apply elem_of_app. by left. }
  destruct (parse l) as [| |[p ms|[] [ev|] m e]] eqn:Ep; cbn [fst].
  all: try (intros (l' & m' & e' & ? & Hin & ?)%IH;
            exists l', m', e'; split_and!; [done| |done];
            apply elem_of_app; by left).
  intros [= ->]. exists l, m, e. split_and!; [done| |done].
  apply elem_of_app. right. by left.
Qed.

(** X23. The page after a whole run of the route, for a serialiser and
    a reader that carry the route's records and any cutting of the body
    into chunks: nothing is written to the console, [loading] is off, the
    bar is at 100 and the step list is that of the last progress record.
    After a success the events and the method name are those of the final
    record and there is no error; after a failure there are no events, also
    when the final record carries the sample events, and the error is the
    record's, or the page's own text when the record's is empty. *)
Theorem X23_page_after_run env stringify parse values :
  round_trip stringify parse (Route.GET env) ->
  received values = wire stringify (Route.GET env) ->
  let r := Client.scrapeEvents parse (Client.Body values None) in
  r.2 = []
  /\ Client.loading r.1 = false
  /\ Client.progress r.1 = 100%Z
  /\ Some (Client.scrapingMethods r.1) = last_broadcast env
  /\ exists s ev m e,
       terminal env = Some (Final s ev m e)
       /\ if s
          then Client.events r.1 = ev /\ Client.successfulMethod r.1 = m
               /\ Client.error r.1 = None
          else Client.events r.1 = None /\ Client.successfulMethod r.1 = None
               /\ Client.error r.1
                  = Some (JSText.or_else e "Failed to scrape events").
Proof.
  intros Hrt Hv r. subst r.
  rewrite scrapeEvents_lines, Hv. unfold complete_lines.
  rewrite split_wire by (intros c Hc; by apply Hrt).
  rewrite removelast_last, (lines_handled _ _ _ _ Hrt). cbv zeta. cbn [fst snd].
  unfold last_broadcast, terminal.
  destruct (GET_shape env) as (ps & ms & s & ev & m & e & -> & Hps & Hev).
  rewrite fold_left_app. cbn [fold_left].
  destruct (handle_progress ps Client.reset Hps) as (He & Hl & Hr & Hm).
  set (st := fold_left Client.handle ps Client.reset) in *.
  split; [done|]. split; [done|].
  assert (last (omap broadcast (ps ++ [Progress 100 ms; Final s ev m e]))
          = Some ms) as ->.
  { rewrite omap_app. simpl. by rewrite last_snoc. }
  assert (last (ps ++ [Progress 100 ms; Final s ev m e])
          = Some (Final s ev m e)) as ->.
  { replace (ps ++ [Progress 100 ms; Final s ev m e])
      with ((ps ++ [Progress 100 ms]) ++ [Final s ev m e])
      by (by rewrite <- app_assoc).
    apply last_snoc. }
  destruct s.
  - destruct (Hev eq_refl) as [evs ->].
    split_and!; [done|done|]. eexists _, _, _, _. split; [done|].
    cbn. by rewrite Hr.
  - split_and!; [done|done|]. eexists _, _, _, _. split; [done|].
    cbn. by rewrite He, Hm.
Qed.

Lemma X23_witness :
  let r := Client.scrapeEvents (untag (Route.GET (smooth_env 0 [fragment_A])))
             (Client.Body [wire tag (Route.GET (smooth_env 0 [fragment_A]))] None) in
  r.2 = []
  /\ Client.loading r.1 = false
  /\ Client.progress r.1 = 100%Z
  /\ Some (Client.scrapingMethods r.1) = last_broadcast (smooth_env 0 [fragment_A])
  /\ exists s ev m e,
       terminal (smooth_env 0 [fragment_A]) = Some (Final s ev m e)
       /\ if s
          then Client.events r.1 = ev /\ Client.successfulMethod r.1 = m
               /\ Client.error r.1 = None
          else Client.events r.1 = None /\ Client.successfulMethod r.1 = None
               /\ Client.error r.1
                  = Some (JSText.or_else e "Failed to scrape events").
Proof.
  apply (X23_page_after_run (smooth_env 0 [fragment_A]) tag
           (untag (Route.GET (smooth_env 0 [fragment_A])))).
  - intros c Hc. vm_compute in Hc.
    repeat (apply elem_of_cons in Hc as [->|Hc]).
    all: try (by apply elem_of_nil in Hc).
    all: by vm_compute.
  - simpl. by rewrite string_app_nil_r.
Defined.
